(** * OctoScreen, package octoprint: the tool endpoint (tool.go)

    A shallow embedding of [src/octoprint/tool.go]: the six command types
    of the tool endpoint, their [encode] and [Do] methods, and
    [ToolResponse.UnmarshalJSON], which splits the flat wire object of the
    read operation into [current] and [history].

    The code leans on Go's [encoding/json].  What the package does with a
    document is modelled on syntax trees: a byte slice is represented by
    the tree the scanner reads from it (or by [Malformed] when the scanner
    rejects it), a number token by the [float64] that [strconv.ParseFloat]
    gives it, an out-of-range token by an infinite float, a string literal
    by the string the decoder unquotes it to. *)

From Stdlib Require Import Ascii PrimFloat.
From stdpp Require Import gmap strings list fin_maps pretty sorting.

Local Open Scope string_scope.
Local Open Scope list_scope.
#[local] Set Warnings "-inexact-float".

(** ** Errors *)

(** Go's [error] values that can reach a caller of this file: the two
    errors of [json.Unmarshal], the error of [json.Marshal], and any other
    error value, which is what the transport may return. *)
Inductive error : Type :=
| SyntaxError
| UnmarshalTypeError
| UnsupportedValueError
| errorString (msg : string).

(** Errors made by the JSON decoder. *)
Definition is_decode_error (e : error) : bool :=
  match e with
  | SyntaxError | UnmarshalTypeError => true
  | _ => false
  end.

(** A value or an error, for the decoders that stop at their first error. *)
Inductive result (A : Type) : Type :=
| Ok (a : A)
| Err (e : error).
Arguments Ok {A} a.
Arguments Err {A} e.

#[export] Instance result_ret : MRet result := @Ok.
#[export] Instance result_bind : MBind result :=
  λ A B f x, match x with Ok a => f a | Err e => Err e end.
#[export] Instance result_fmap : FMap result :=
  λ A B f x, match x with Ok a => Ok (f a) | Err e => Err e end.

(** Left fold with a step that may fail. *)
Fixpoint foldM {A B : Type} (f : A → B → result A) (a : A) (l : list B) : result A :=
  match l with
  | [] => Ok a
  | x :: l => a' ← f a x; foldM f a' l
  end.

(** ** JSON documents *)

(** A document over a type [N] of numbers: [float] for what the server
    sends, [Z] for the integers the commands carry.  The members of an
    object are kept in document order, duplicates included. *)
#[local] Unset Elimination Schemes.
Inductive json (N : Type) : Type :=
| JNull
| JBool (b : bool)
| JNum (n : N)
| JStr (s : string)
| JArr (items : list (json N))
| JObj (kvs : list (string * json N)).
#[local] Set Elimination Schemes.
Arguments JNull {N}.
Arguments JBool {N} b.
Arguments JNum {N} n.
Arguments JStr {N} s.
Arguments JArr {N} items.
Arguments JObj {N} kvs.

(** The argument [b []byte] of a decoder. *)
Inductive bytes : Type :=
| Malformed
| Document (j : json float).

(** [m[key] = value] for each member in turn: a later duplicate wins. *)
Definition obj_map {A : Type} (kvs : list (string * A)) : gmap string A :=
  foldl (λ m kv, <[kv.1 := kv.2]> m) ∅ kvs.

(** The encoder writes the entries of a map sorted by key. *)
Definition key_le {A : Type} (x y : string * A) : Prop := String.leb x.1 y.1.

#[export] Instance key_le_dec {A : Type} (x y : string * A) : Decision (key_le x y) :=
  Is_true_dec (String.leb x.1 y.1).

Definition members {A : Type} (m : gmap string A) : list (string * A) :=
  merge_sort key_le (map_to_list m).

(** A float64 that a number token can denote. *)
Definition is_finite (x : float) : bool := negb (is_nan x || is_infinity x).

(** Whether every number of a document is in the range of float64. *)
Fixpoint in_range (j : json float) : bool :=
  match j with
  | JNum x => is_finite x
  | JArr items => forallb in_range items
  | JObj kvs => forallb (λ kv, in_range kv.2) kvs
  | _ => true
  end.

(** Decoding into [interface{}]: nil, bool, float64, string,
    [[]interface{}] and [map[string]interface{}].  A map is kept as the
    member list the encoder would write for it, so the result is again a
    document.  A number out of range is stored as nil (and reported, see
    [Unmarshal_map]). *)
Fixpoint to_interface (j : json float) : json float :=
  match j with
  | JNum x => if is_finite x then JNum x else JNull
  | JArr items => JArr (map to_interface items)
  | JObj kvs => JObj (members (obj_map (map (λ kv, (kv.1, to_interface kv.2)) kvs)))
  | _ => j
  end.

(** The [map[string]interface{}] that the decoder makes of an object. *)
Definition objectInterface (kvs : list (string * json float)) : gmap string (json float) :=
  obj_map (map (λ kv, (kv.1, to_interface kv.2)) kvs).

(** [json.Unmarshal(b, &raw)] for [var raw map[string]interface{}].  [None]
    is the nil map, which the literal null leaves in place.  The decoder
    keeps going after a number that does not fit and returns that error at
    the end. *)
Definition Unmarshal_map (b : bytes) : option (gmap string (json float)) * option error :=
  match b with
  | Malformed => (None, Some SyntaxError)
  | Document JNull => (None, None)
  | Document (JObj kvs) =>
      (Some (objectInterface kvs),
       if in_range (JObj kvs) then None else Some UnmarshalTypeError)
  | Document _ => (None, Some UnmarshalTypeError)
  end.

(** [json.Marshal] of an [interface{}] value: it fails on a NaN or an
    infinity and then returns no bytes. *)
Definition Marshal (v : json float) : bytes * option error :=
  if in_range v then (Document v, None) else (Malformed, Some UnsupportedValueError).

(** ** Matching a key with a field *)

(** The decoder matches the key of a member with the json tag of a struct
    field up to case folding: ASCII letters in either case, and, as the
    folding of Unicode has it, U+017F (bytes 197 191) for s and U+212A
    (bytes 226 132 170) for k. *)
Definition lower (c : ascii) : ascii :=
  let n := nat_of_ascii c in
  if (65 <=? n)%nat && (n <=? 90)%nat then ascii_of_nat (n + 32) else c.

Fixpoint foldName (s : string) : string :=
  match s with
  | EmptyString => EmptyString
  | String c s' =>
      match c, s' with
      | "197"%char, String "191"%char s'' => String "s"%char (foldName s'')
      | "226"%char, String "132"%char (String "170"%char s'') => String "k"%char (foldName s'')
      | _, _ => String (lower c) (foldName s')
      end
  end.

Definition key_matches (tag key : string) : bool :=
  String.eqb (foldName key) (foldName tag).

(** ** The response types *)

(** Modelled from the spec: the type [CurrentState] is declared outside
    tool.go.  The spec gives a tool's state three numeric fields, actual,
    target and offset, which deserialize to zero when absent. *)
Record CurrentState : Type := mkCurrentState {
  Actual : float;
  Target : float;
  Offset : float
}.

Definition zero_CurrentState : CurrentState := mkCurrentState 0 0 0.

(** The type [History] of a history entry is declared outside tool.go as
    well; the spec calls it HistoryEntry and leaves its wire shape open, so
    the entry type and its decoder are taken as given. *)
Class HistoryCodec : Type := {
  HistoryEntry : Type;
  decode_History : json float → result HistoryEntry
}.

(** [type toolResponse struct { Current map[string]CurrentState;
    History []*History }], and [type ToolResponse toolResponse].  A nil
    map and an empty map are both [∅], a nil slice and an empty slice both
    [[]]; a nil pointer in the slice is [None]. *)
Record toolResponse `{HistoryCodec} : Type := mktoolResponse {
  Current : gmap string CurrentState;
  History : list (option HistoryEntry)
}.

Definition zero_toolResponse `{HistoryCodec} : toolResponse := mktoolResponse _ ∅ [].

(** ** Decoding into the typed structures *)

(** A number into a [float64] field; null leaves the field as it is. *)
Definition decode_float64 (v : json float) (old : float) : result float :=
  match v with
  | JNum x => Ok x
  | JNull => Ok old
  | _ => Err UnmarshalTypeError
  end.

(** Modelled from the spec: one member of a tool entry stored into the
    field whose name its key matches; other members are skipped. *)
Definition CurrentState_set (s : CurrentState) (kv : string * json float) : result CurrentState :=
  if key_matches "actual" kv.1 then
    x ← decode_float64 kv.2 (Actual s); Ok (mkCurrentState x (Target s) (Offset s))
  else if key_matches "target" kv.1 then
    x ← decode_float64 kv.2 (Target s); Ok (mkCurrentState (Actual s) x (Offset s))
  else if key_matches "offset" kv.1 then
    x ← decode_float64 kv.2 (Offset s); Ok (mkCurrentState (Actual s) (Target s) x)
  else Ok s.

Definition decode_CurrentState (v : json float) (s : CurrentState) : result CurrentState :=
  match v with
  | JNull => Ok s
  | JObj kvs => foldM CurrentState_set s kvs
  | _ => Err UnmarshalTypeError
  end.

(** Into [map[string]CurrentState]: every member is decoded into a fresh
    zero element and stored under its key. *)
Definition decode_Current (v : json float) (old : gmap string CurrentState)
  : result (gmap string CurrentState) :=
  match v with
  | JNull => Ok ∅
  | JObj kvs =>
      foldM (λ m kv, s ← decode_CurrentState kv.2 zero_CurrentState; Ok (<[kv.1 := s]> m)) old kvs
  | _ => Err UnmarshalTypeError
  end.

Section typed.
Context `{HistoryCodec}.

(** Into [*History]: null is the nil pointer. *)
Definition decode_History_ptr (v : json float) : result (option HistoryEntry) :=
  match v with
  | JNull => Ok None
  | _ => Some <$> decode_History v
  end.

(** Into [[]*History]. *)
Definition decode_History_slice (v : json float) : result (list (option HistoryEntry)) :=
  match v with
  | JNull => Ok []
  | JArr items => mapM decode_History_ptr items
  | _ => Err UnmarshalTypeError
  end.

(** One member of the object stored into the field whose json tag its key
    matches; other members are skipped. *)
Definition toolResponse_set (i : toolResponse) (kv : string * json float) : result toolResponse :=
  if key_matches "current" kv.1 then
    m ← decode_Current kv.2 (Current i); Ok (mktoolResponse _ m (History i))
  else if key_matches "history" kv.1 then
    h ← decode_History_slice kv.2; Ok (mktoolResponse _ (Current i) h)
  else Ok i.

Definition decode_toolResponse (v : json float) (i : toolResponse) : result toolResponse :=
  match v with
  | JNull => Ok i
  | JObj kvs => foldM toolResponse_set i kvs
  | _ => Err UnmarshalTypeError
  end.

(** [json.Unmarshal(b, i)] for [i *toolResponse].  The decoder goes on
    after a value of the wrong type and returns the first such error at the
    end; what it has stored by then is not used by this file, so the model
    stops at the error. *)
Definition Unmarshal_toolResponse (b : bytes) (i : toolResponse) : toolResponse * option error :=
  match b with
  | Malformed => (i, Some SyntaxError)
  | Document j =>
      match decode_toolResponse j i with
      | Ok i' => (i', None)
      | Err e => (i, Some e)
      end
  end.

End typed.

(** ** ToolResponse *)

Module ToolResponse.

(** [type ToolResponse toolResponse]. *)
Abbreviation t := toolResponse.

(** [func (r *ToolResponse) UnmarshalJSON(b []byte) error].  The receiver is
    threaded through: the result pairs what [*r] holds afterwards with the
    returned error.  The error of [json.Marshal] is dropped as in the
    source, and [i] starts as [&toolResponse{}]. *)
Definition UnmarshalJSON `{HistoryCodec} (b : bytes) (r : t) : t * option error :=
  let '(raw, err) := Unmarshal_map b in
  match err with
  | Some e => (r, Some e)
  | None =>
      let history := default JNull (raw ≫= (.!! "history")) in
      let raw := delete "history" <$> raw in
      let '(b, _) := Marshal (JObj [("current", from_option (λ m, JObj (members m)) JNull raw);
                                    ("history", history)]) in
      let '(i, err) := Unmarshal_toolResponse b zero_toolResponse in
      match err with
      | Some e => (r, Some e)
      | None => (i, None)
      end
  end.

End ToolResponse.

(** [json.Unmarshal(b, &r)] for [r *ToolResponse]: the argument points to a
    pointer.  The literal null sets that pointer to nil without calling
    [UnmarshalJSON]; any other document is handed to [UnmarshalJSON] of the
    value [r] points to.  The result pairs the pointer afterwards ([None]
    for nil) with the returned error. *)
Definition Unmarshal_ToolResponse_ptr `{HistoryCodec} (b : bytes) (r : ToolResponse.t)
  : option ToolResponse.t * option error :=
  match b with
  | Malformed => (Some r, Some SyntaxError)
  | Document JNull => (None, None)
  | Document _ => let '(r', err) := ToolResponse.UnmarshalJSON b r in (Some r', err)
  end.

(** ** The transport *)

(** [bytes.Buffer], the body of a POST: the documents written to it, each
    of which [Encode] ends with a newline. *)
Definition Buffer : Type := list (json Z).

Record request : Type := mkrequest {
  method : string;
  uri : string;
  body : option Buffer
}.

(** Modelled from the spec: the transport collaborator
    [doRequest(method, uri, body) -> (bytes, error)] of [Client] is declared
    outside tool.go.  A client is any behaviour of the transport, which may
    depend on the requests made before, together with the requests made so
    far. *)
Record Client : Type := mkClient {
  transport : list request → request → bytes * option error;
  sent : list request
}.

Definition doRequest (method uri : string) (body : option Buffer) (c : Client)
  : (bytes * option error) * Client :=
  let req := mkrequest method uri body in
  (transport c (sent c) req, mkClient (transport c) (sent c ++ [req])).

(** [const URITool]. *)
Definition URITool : string := "/api/printer/tool".

(** The verbs [%t] and [%d] of [fmt.Sprintf]. *)
Definition fmt_t (b : bool) : string := if b then "true" else "false".
Definition fmt_d (n : Z) : string := pretty n.

(** ** ToolCommand *)

Module ToolCommand.

Record t : Type := mk {
  History : bool;
  Limit : Z
}.

(** [Do(c)] of a [*ToolCommand] returns a [*ToolResponse] and an [error]. *)
Definition Do `{HistoryCodec} (cmd : t) (c : Client)
  : (option ToolResponse.t * option error) * Client :=
  let uri := URITool +:+ "?history=" +:+ fmt_t (History cmd) +:+ "&limit=" +:+ fmt_d (Limit cmd) in
  let '((b, err), c) := doRequest "GET" uri None c in
  match err with
  | Some e => ((None, Some e), c)
  | None =>
      let r := zero_toolResponse in
      let '(r, err') := Unmarshal_ToolResponse_ptr b r in
      match err' with
      | Some e => ((None, Some e), c)
      | None => ((r, err), c)
      end
  end.

End ToolCommand.

(** ** The commands that write *)

(** [io.Writer]. *)
Class Writer (W : Type) : Type := Write : W → json Z → W * option error.

(** A [bytes.Buffer] takes every write. *)
#[export] Instance Buffer_Writer : Writer Buffer := λ w p, (w ++ [p], None).

(** [bytes.NewBuffer(nil)]. *)
Definition NewBuffer : Buffer := [].

(** *** Strings on the wire

    A Go string is any sequence of bytes, a JSON string is text.  The
    encoder writes a string, and the key of a map, rune by rune, and in
    place of every byte at which no well-formed UTF-8 encoding starts it
    writes the escape of U+FFFD.  (Its other escapes, of quotes, control
    characters and the like, denote the character they stand for and do not
    show in a syntax tree.) *)

Definition byte_in (lo hi : N) (c : ascii) : bool :=
  (lo <=? N_of_ascii c)%N && (N_of_ascii c <=? hi)%N.

(** The tables [first] and [acceptRanges] of [unicode/utf8]: for the first
    byte of an encoding, the number of bytes that follow it and the range
    of the next one; [None] for a byte that starts no encoding (80 to C1,
    F5 to FF). *)
Definition first (c : ascii) : option (nat * (N * N)) :=
  let b := N_of_ascii c in
  if (b <? 0x80)%N then Some (0%nat, (0x80, 0xBF)%N)
  else if (b <? 0xC2)%N then None
  else if (b <? 0xE0)%N then Some (1%nat, (0x80, 0xBF)%N)
  else if (b =? 0xE0)%N then Some (2%nat, (0xA0, 0xBF)%N)
  else if (b =? 0xED)%N then Some (2%nat, (0x80, 0x9F)%N)
  else if (b <? 0xF0)%N then Some (2%nat, (0x80, 0xBF)%N)
  else if (b =? 0xF0)%N then Some (3%nat, (0x90, 0xBF)%N)
  else if (b <? 0xF4)%N then Some (3%nat, (0x80, 0xBF)%N)
  else if (b =? 0xF4)%N then Some (3%nat, (0x80, 0x8F)%N)
  else None.

(** Whether [s] goes on with [n] bytes, the next one between [lo] and [hi]
    and the ones after it continuation bytes (80 to BF). *)
Fixpoint follows (n : nat) (lo hi : N) (s : string) : bool :=
  match n, s with
  | O, _ => true
  | S n, String c s' => byte_in lo hi c && follows n 0x80 0xBF s'
  | S _, EmptyString => false
  end.

(** [utf8.DecodeRuneInString], of which the encoder uses the size: the
    number of bytes of the encoding that [s] starts with, and [None] where
    the library answers [RuneError] with size 1. *)
Definition DecodeRuneInString (s : string) : option nat :=
  match s with
  | EmptyString => Some 0%nat
  | String c s' =>
      match first c with
      | Some (n, (lo, hi)) => if follows n lo hi s' then Some (S n) else None
      | None => None
      end
  end.

(** U+FFFD in UTF-8: the bytes EF BF BD. *)
Definition RuneError : string := String "239" (String "191" (String "189" EmptyString)).

(** The text that the encoder's string literal for [s] denotes, after the
    loop of [appendString] in [encoding/json]: a well-formed encoding is
    copied, a byte where [DecodeRuneInString] answers [RuneError] with size
    1 becomes U+FFFD and the loop goes on at the next byte.  [skip] counts
    the bytes still to copy of the encoding at hand. *)
Fixpoint replace_invalid_from (skip : nat) (s : string) : string :=
  match s with
  | EmptyString => EmptyString
  | String c s' =>
      match skip with
      | S n => String c (replace_invalid_from n s')
      | O =>
          match DecodeRuneInString s with
          | Some size => String c (replace_invalid_from (pred size) s')
          | None => RuneError +:+ replace_invalid_from 0 s'
          end
      end
  end.

Definition replace_invalid : string → string := replace_invalid_from 0.

(** [utf8.ValidString]: every byte belongs to a well-formed encoding. *)
Fixpoint ValidString_from (skip : nat) (s : string) : bool :=
  match s with
  | EmptyString => true
  | String c s' =>
      match skip with
      | S n => ValidString_from n s'
      | O =>
          match DecodeRuneInString s with
          | Some size => ValidString_from (pred size) s'
          | None => false
          end
      end
  end.

Definition ValidString : string → bool := ValidString_from 0.

(** Go values of the types the commands are made of: string, int,
    [map[string]int] ([None] is the nil map) and structs.  A struct lists
    its fields in declaration order, a field with its json tag or, for an
    embedded struct, without one. *)
#[local] Unset Elimination Schemes.
Inductive value : Type :=
| VString (s : string)
| VInt (n : Z)
| VMap (m : option (gmap string Z))
| VStruct (fs : list (option string * value)).
#[local] Set Elimination Schemes.

(** The members written for entries of a [map[string]int]: each entry
    under its key as text. *)
Definition written_entries (es : list (string * Z)) : list (string * json Z) :=
  (λ e, (replace_invalid e.1, JNum e.2)) <$> es.

(** A [map[string]int]: null for the nil map; else the entries are sorted
    by their keys as the map has them and then written.  Two keys that
    differ in ill-formed bytes only are written as the same key, twice. *)
Definition marshal_map_int (m : option (gmap string Z)) : json Z :=
  match m with
  | None => JNull
  | Some m => JObj (written_entries (members m))
  end.

(** What the encoder writes for a value.  The fields of an embedded struct
    become members of the enclosing object, under their tags, which in this
    file are ASCII.  (No two fields of a struct of this file end up with the
    same name, so the encoder's rule for such clashes is left out.) *)
Fixpoint marshal (v : value) : json Z :=
  match v with
  | VString s => JStr (replace_invalid s)
  | VInt n => JNum n
  | VMap m => marshal_map_int m
  | VStruct fs =>
      JObj (flat_map (λ f, match f.1 with
                           | Some tag => [(tag, marshal f.2)]
                           | None => match marshal f.2 with JObj kvs => kvs | _ => [] end
                           end) fs)
  end.

(** [json.NewEncoder(w).Encode(v)]: none of these values makes the encoder
    fail, so the error is the writer's. *)
Definition Encode {W : Type} `{Writer W} (w : W) (v : value) : W * option error :=
  Write w (marshal v).

Module TargetCommand.

(** [Target map[string]int `json:"target"`]. *)
Record t : Type := mk { Target : option (gmap string Z) }.

Definition to_value (cmd : t) : value := VStruct [(Some "target", VMap (Target cmd))].

Definition encode {W : Type} `{Writer W} (cmd : t) (w : W) : W * option error :=
  Encode w (VStruct [(Some "command", VString "target"); (None, to_value cmd)]).

Definition Do (cmd : t) (c : Client) : option error * Client :=
  let b := NewBuffer in
  match encode cmd b with
  | (_, Some err) => (Some err, c)
  | (b, None) => let '((_, err), c) := doRequest "POST" URITool (Some b) c in (err, c)
  end.

End TargetCommand.

Module OffsetCommand.

(** [Offsets map[string]int `json:"offsets"`]. *)
Record t : Type := mk { Offsets : option (gmap string Z) }.

Definition to_value (cmd : t) : value := VStruct [(Some "offsets", VMap (Offsets cmd))].

Definition encode {W : Type} `{Writer W} (cmd : t) (w : W) : W * option error :=
  Encode w (VStruct [(Some "command", VString "offset"); (None, to_value cmd)]).

Definition Do (cmd : t) (c : Client) : option error * Client :=
  let b := NewBuffer in
  match encode cmd b with
  | (_, Some err) => (Some err, c)
  | (b, None) => let '((_, err), c) := doRequest "POST" URITool (Some b) c in (err, c)
  end.

End OffsetCommand.

Module ExtrudeCommand.

(** [Amount int `json:"amount"`]. *)
Record t : Type := mk { Amount : Z }.

Definition to_value (cmd : t) : value := VStruct [(Some "amount", VInt (Amount cmd))].

Definition encode {W : Type} `{Writer W} (cmd : t) (w : W) : W * option error :=
  Encode w (VStruct [(Some "command", VString "extrude"); (None, to_value cmd)]).

Definition Do (cmd : t) (c : Client) : option error * Client :=
  let b := NewBuffer in
  match encode cmd b with
  | (_, Some err) => (Some err, c)
  | (b, None) => let '((_, err), c) := doRequest "POST" URITool (Some b) c in (err, c)
  end.

End ExtrudeCommand.

Module SelectCommand.

(** [Tool string `json:"tool"`]. *)
Record t : Type := mk { Tool : string }.

Definition to_value (cmd : t) : value := VStruct [(Some "tool", VString (Tool cmd))].

Definition encode {W : Type} `{Writer W} (cmd : t) (w : W) : W * option error :=
  Encode w (VStruct [(Some "command", VString "select"); (None, to_value cmd)]).

Definition Do (cmd : t) (c : Client) : option error * Client :=
  let b := NewBuffer in
  match encode cmd b with
  | (_, Some err) => (Some err, c)
  | (b, None) => let '((_, err), c) := doRequest "POST" URITool (Some b) c in (err, c)
  end.

End SelectCommand.

Module FlowrateCommand.

(** [Factor string `json:"factor"`]. *)
Record t : Type := mk { Factor : string }.

Definition to_value (cmd : t) : value := VStruct [(Some "factor", VString (Factor cmd))].

Definition encode {W : Type} `{Writer W} (cmd : t) (w : W) : W * option error :=
  Encode w (VStruct [(Some "command", VString "flowrate"); (None, to_value cmd)]).

Definition Do (cmd : t) (c : Client) : option error * Client :=
  let b := NewBuffer in
  match encode cmd b with
  | (_, Some err) => (Some err, c)
  | (b, None) => let '((_, err), c) := doRequest "POST" URITool (Some b) c in (err, c)
  end.

End FlowrateCommand.

(** ** Reading a payload, for the statements below *)

(** The value of key [k] in an object with members [kvs]: its last
    occurrence, as every JSON reader that keeps one value per key has it. *)
Fixpoint member {A : Type} (k : string) (kvs : list (string * A)) : option A :=
  match kvs with
  | [] => None
  | kv :: kvs =>
      match member k kvs with
      | Some v => Some v
      | None => if decide (kv.1 = k) then Some kv.2 else None
      end
  end.

(** A member that a numeric field accepts: absent, null or a number. *)
Definition numeric_member (o : option (json float)) : bool :=
  match o with
  | None | Some JNull | Some (JNum _) => true
  | _ => false
  end.

(** The number a member holds, and [old] for an absent or null member. *)
Definition number_or (old : float) (o : option (json float)) : float :=
  match o with
  | Some (JNum x) => x
  | _ => old
  end.

Definition number_or_zero (o : option (json float)) : float := number_or 0 o.

(** The tool state that a tool entry of the wire object denotes. *)
Definition state_of (v : json float) : CurrentState :=
  match v with
  | JObj fields =>
      mkCurrentState (number_or_zero (member "actual" fields))
                     (number_or_zero (member "target" fields))
                     (number_or_zero (member "offset" fields))
  | _ => zero_CurrentState
  end.

(** A key that names a field of a tool state, if at all, in the letters of
    its tag. *)
Definition plain_key (k : string) : bool :=
  forallb (λ tag, implb (key_matches tag k) (String.eqb k tag)) ["actual"; "target"; "offset"].

Definition plain_keys {A : Type} (fields : list (string * A)) : bool :=
  forallb (λ kv, plain_key kv.1) fields.

(** A tool entry: null, or an object with plain keys whose actual, target
    and offset are numbers where present. *)
Definition tool_entry (v : json float) : bool :=
  match v with
  | JNull => true
  | JObj fields =>
      plain_keys fields &&
      numeric_member (member "actual" fields) &&
      numeric_member (member "target" fields) &&
      numeric_member (member "offset" fields)
  | _ => false
  end.

(** A tool state with finite temperatures. *)
Definition finite_state (s : CurrentState) : Prop :=
  is_finite (Actual s) = true ∧ is_finite (Target s) = true ∧ is_finite (Offset s) = true.

Section payload.
Context `{HistoryCodec}.

(** The history entry that an item of the wire array denotes. *)
Definition entry_of (item : json float) : option HistoryEntry :=
  match item with
  | JNull => None
  | _ => match decode_History (to_interface item) with Ok h => Some h | Err _ => None end
  end.

Definition history_item (item : json float) : bool :=
  match item with
  | JNull => true
  | _ => match decode_History (to_interface item) with Ok _ => true | Err _ => false end
  end.

Definition history_of (o : option (json float)) : list (option HistoryEntry) :=
  match o with
  | Some (JArr items) => entry_of <$> items
  | _ => []
  end.

Definition history_value (o : option (json float)) : bool :=
  match o with
  | None | Some JNull => true
  | Some (JArr items) => forallb history_item items
  | _ => false
  end.

(** A valid tool-state payload: an object with every number in range whose
    members other than history are tool entries and whose history, if any,
    is null or an array of history entries. *)
Definition valid_payload (kvs : list (string * json float)) : bool :=
  in_range (JObj kvs) &&
  forallb (λ kv, bool_decide (kv.1 = "history") || tool_entry kv.2) kvs &&
  history_value (member "history" kvs).

(** What [UnmarshalJSON] can return: no tool is called history, every
    temperature is finite, and every history entry was read from a
    document. *)
Definition normalized (r : toolResponse) : Prop :=
  Current r !! "history" = None ∧
  (∀ k s, Current r !! k = Some s → finite_state s) ∧
  (∀ h, Some h ∈ History r → ∃ v, in_range v = true ∧ decode_History v = Ok h).

(** The decoder of a history entry fails with the errors of the JSON
    decoder only. *)
Definition decoder_errors_only : Prop :=
  ∀ v e, decode_History v = Err e → is_decode_error e = true.

End payload.

(** ** Back to the flat form *)



Section flat.
Context `{HistoryEncoder}.




End flat.

(** ** A history entry type for the examples *)

(** The entries of the spec's scenario: a timestamp with the actual and
    target temperature at that time. *)
Record Snapshot : Type := mkSnapshot {
  snap_actual : float;
  snap_target : float;
  snap_timestamp : float
}.

Definition snapshot_field (name : string) (kvs : list (string * json float)) : result float :=
  match member name kvs with
  | None => Ok 0%float
  | Some v => decode_float64 v 0
  end.

Definition decode_Snapshot (v : json float) : result Snapshot :=
  match v with
  | JObj kvs =>
      a ← snapshot_field "actual" kvs;
      t ← snapshot_field "target" kvs;
      ts ← snapshot_field "timestamp" kvs;
      Ok (mkSnapshot a t ts)
  | _ => Err UnmarshalTypeError
  end.

Definition snapshots : HistoryCodec :=
  {| HistoryEntry := Snapshot; decode_History := decode_Snapshot |}.



(** The payload of the spec's scenario. *)
Definition scenario_payload : list (string * json float) :=
  [("tool0", JObj [("actual", JNum 200.1%float); ("target", JNum 210%float);
                   ("offset", JNum 0%float)]);
   ("history", JArr [JObj [("actual", JNum 199%float); ("target", JNum 210%float);
                           ("timestamp", JNum 1000%float)]])].

(** A transport that answers every request with the same bytes, and one
    that fails every request with the same error. *)
Definition answering (b : bytes) : Client := mkClient (λ _ _, (b, None)) [].
Definition failing (e : error) : Client := mkClient (λ _ _, (Malformed, Some e)) [].

(** ** For the further statements *)


Definition scalar_or_object (v : json float) : Prop :=
  match v with
  | JNull | JArr _ => False
  | _ => True
  end.

(** The request that [Do] of a [ToolCommand] makes. *)
Definition ToolCommand_request (cmd : ToolCommand.t) : request :=
  mkrequest "GET"
    (URITool +:+ "?history=" +:+ fmt_t (ToolCommand.History cmd) +:+
     "&limit=" +:+ fmt_d (ToolCommand.Limit cmd)) None.

(** * Package ui: the idle menu (idle_menu.go) *)

(** The methods of the panel that its buttons call. *)
Inductive handler : Type :=
| showNetwork
| showToolchanger
| showControl
| showSystem
| showTemperature.

(** What idle_menu.go uses of the rest of package ui, which is declared
    outside it: the types [UI], [Panel] and [CommonPanel], the constructor
    [NewCommonPanel], the method [Initialize], [Attach] of the panel's grid
    and the button maker [MustButtonImageStyle].  They are taken as given. *)
Class PanelKit : Type := {
  UI : Type;
  Panel : Type;
  Widget : Type;
  CommonPanel : Type;
  NewCommonPanel : UI → Panel → CommonPanel;
  Initialize : CommonPanel → CommonPanel;
  Grid_Attach : Widget → Z → Z → Z → Z → CommonPanel → CommonPanel;
  MustButtonImageStyle : string → string → string → handler → Widget
}.

Section idle_menu.
Context `{PanelKit}.

(** [type idleMenuPanel struct { CommonPanel }]. *)
Record idleMenuPanel : Type := mkidleMenuPanel { panel : CommonPanel }.

(** [func (m *idleMenuPanel) initialize()]: the deferred [m.Initialize()]
    runs last. *)
Definition initialize (m : idleMenuPanel) : idleMenuPanel :=
  let p := panel m in
  let p := Grid_Attach (MustButtonImageStyle "Network" "network.svg" "color1" showNetwork)
             1 0 1 1 p in
  let p := Grid_Attach (MustButtonImageStyle "ToolChanger" "toolchanger.svg" "color2"
                          showToolchanger) 2 0 1 1 p in
  let p := Grid_Attach (MustButtonImageStyle "Control" "control.svg" "color4" showControl)
             3 0 1 1 p in
  let p := Grid_Attach (MustButtonImageStyle "System" "settings.svg" "color3" showSystem)
             4 0 1 1 p in
  let p := Grid_Attach (MustButtonImageStyle "Temperature" "heat-up.svg" "color4"
                          showTemperature) 1 1 1 1 p in
  mkidleMenuPanel (Initialize p).

(** [func IdleMenuPanel(ui *UI, parent Panel) Panel], with the package
    variable [idleMenuPanelInstance] threaded through ([None] is nil): the
    result pairs the panel returned with the variable afterwards. *)
Definition IdleMenuPanel (ui : UI) (parent : Panel) (idleMenuPanelInstance : option idleMenuPanel)
  : idleMenuPanel * option idleMenuPanel :=
  match idleMenuPanelInstance with
  | None =>
      let m := mkidleMenuPanel (NewCommonPanel ui parent) in
      let m := initialize m in
      (m, Some m)
  | Some m => (m, Some m)
  end.

(** Calls of [IdleMenuPanel] one after the other: the panels they return
    and the variable at the end. *)
Fixpoint IdleMenuPanel_calls (args : list (UI * Panel)) (instance : option idleMenuPanel)
  : list idleMenuPanel * option idleMenuPanel :=
  match args with
  | [] => ([], instance)
  | (ui, parent) :: args =>
      let '(m, instance) := IdleMenuPanel ui parent instance in
      let '(ms, instance) := IdleMenuPanel_calls args instance in
      (m :: ms, instance)
  end.

End idle_menu.

(** A kit for the examples: a panel is the list of what was done to it. *)
Definition logging_kit : PanelKit :=
  {| UI := string; Panel := string; Widget := string; CommonPanel := list string;
     NewCommonPanel ui parent := ["new " +:+ ui +:+ " " +:+ parent];
     Initialize p := p ++ ["Initialize"];
     Grid_Attach w left top width height p := p ++ [w +:+ " at " +:+ pretty left +:+ "," +:+ pretty top];
     MustButtonImageStyle label image style h := label |}.

(** * Lemmas *)

(** Structural induction on documents, with the hypothesis for every item
    of an array and every member of an object. *)
Lemma json_ind {N : Type} (P : json N → Prop)
  (Hnull : P JNull) (Hbool : ∀ b, P (JBool b)) (Hnum : ∀ n, P (JNum n))
  (Hstr : ∀ s, P (JStr s))
  (Harr : ∀ items, Forall P items → P (JArr items))
  (Hobj : ∀ kvs, Forall (λ kv, P kv.2) kvs → P (JObj kvs)) :
  ∀ j, P j.
Proof.
  fix IH 1. intros [| b | n | s | items | kvs].
  - exact Hnull.
  - apply Hbool.
  - apply Hnum.
  - apply Hstr.
  - apply Harr. induction items as [| j items IHitems]; constructor; [apply IH | exact IHitems].
  - apply Hobj. induction kvs as [| [k j] kvs IHkvs]; constructor; [apply IH | exact IHkvs].
Qed.

Section member_lemmas.
Context {A : Type}.
Implicit Types (kvs : list (string * A)) (m : gmap string A).

Lemma member_app k kvs1 kvs2 :
  member k (kvs1 ++ kvs2) =
    match member k kvs2 with Some v => Some v | None => member k kvs1 end.
Proof.
  induction kvs1 as [| kv kvs1 IH]; simpl.
  - by destruct (member k kvs2).
  - rewrite IH. by destruct (member k kvs2).
Qed.

Lemma member_elem_of k v kvs : member k kvs = Some v → (k, v) ∈ kvs.
Proof.
  induction kvs as [| [k' v'] kvs IH]; simpl; [done |].
  destruct (member k kvs) as [w |].
  - intros [= ->]. right. by apply IH.
  - case_decide; [| done]. intros [= ->]. simpl in *. subst. left.
Qed.

Lemma member_None k kvs : member k kvs = None ↔ k ∉ kvs.*1.
Proof.
  induction kvs as [| [k' v'] kvs IH]; simpl.
  - split; [intros _; apply not_elem_of_nil | done].
  - rewrite not_elem_of_cons. destruct (member k kvs) as [w |].
    + split; [done |]. intros [_ Hk]. by apply IH in Hk.
    + case_decide; simpl in *; split; try done.
      * intros [Hne _]. by subst.
      * intros _. split; [congruence | by apply IH].
Qed.

Lemma foldl_insert_lookup kvs m k :
  foldl (λ m kv, <[kv.1 := kv.2]> m) m kvs !! k =
    match member k kvs with Some v => Some v | None => m !! k end.
Proof.
  revert m. induction kvs as [| [k' v'] kvs IH]; intros m; simpl; [done |].
  rewrite IH. destruct (member k kvs); [done |].
  case_decide; subst.
  - by rewrite lookup_insert_eq.
  - by rewrite lookup_insert_ne.
Qed.

Lemma obj_map_lookup kvs k : obj_map kvs !! k = member k kvs.
Proof.
  unfold obj_map. rewrite foldl_insert_lookup, lookup_empty. by destruct (member k kvs).
Qed.

Lemma members_Permutation m : members m ≡ₚ map_to_list m.
Proof. apply merge_sort_Permutation. Qed.

Lemma members_NoDup m : NoDup (members m).*1.
Proof. rewrite members_Permutation. apply NoDup_fst_map_to_list. Qed.

Lemma elem_of_members m k v : (k, v) ∈ members m ↔ m !! k = Some v.
Proof. rewrite members_Permutation. apply elem_of_map_to_list. Qed.

Lemma member_NoDup k v kvs : NoDup kvs.*1 → (k, v) ∈ kvs → member k kvs = Some v.
Proof.
  induction kvs as [| [k' v'] kvs IH]; simpl; [by rewrite elem_of_nil |].
  rewrite NoDup_cons, elem_of_cons. intros [Hk' Hnd] [[= -> ->] | Hin].
  - apply member_None in Hk'. rewrite Hk'. by rewrite decide_True.
  - by rewrite (IH Hnd Hin).
Qed.

Lemma member_NoDup_lookup k kvs m :
  NoDup kvs.*1 → (∀ k v, (k, v) ∈ kvs ↔ m !! k = Some v) → member k kvs = m !! k.
Proof.
  intros Hnd Hm. destruct (m !! k) as [v |] eqn:Hk.
  - apply member_NoDup; [done |]. by apply Hm.
  - destruct (member k kvs) as [v |] eqn:Hv; [| done].
    apply member_elem_of, Hm in Hv. congruence.
Qed.

Lemma member_members k m : member k (members m) = m !! k.
Proof. apply member_NoDup_lookup; [apply members_NoDup | intros; apply elem_of_members]. Qed.

Lemma member_map_to_list k m : member k (map_to_list m) = m !! k.
Proof.
  apply member_NoDup_lookup; [apply NoDup_fst_map_to_list | intros; apply elem_of_map_to_list].
Qed.

Lemma obj_map_members m : obj_map (members m) = m.
Proof. apply map_eq; intros k. by rewrite obj_map_lookup, member_members. Qed.

Lemma obj_map_map_to_list m : obj_map (map_to_list m) = m.
Proof. apply map_eq; intros k. by rewrite obj_map_lookup, member_map_to_list. Qed.

End member_lemmas.

Lemma member_map {A B : Type} (f : A → B) k (kvs : list (string * A)) :
  member k (map (λ kv, (kv.1, f kv.2)) kvs) = f <$> member k kvs.
Proof.
  induction kvs as [| [k' v'] kvs IH]; simpl; [done |].
  rewrite IH. destruct (member k kvs); simpl; [done |]. by case_decide.
Qed.

(** ** Numbers in range *)

Lemma in_range_member k (v : json float) kvs :
  in_range (JObj kvs) = true → member k kvs = Some v → in_range v = true.
Proof.
  simpl. rewrite forallb_forall. intros Hall Hk.
  apply member_elem_of, list_elem_of_In in Hk. exact (Hall _ Hk).
Qed.

Lemma in_range_item (v : json float) items :
  in_range (JArr items) = true → v ∈ items → in_range v = true.
Proof. simpl. rewrite forallb_forall. intros Hall Hv. apply Hall. by apply list_elem_of_In. Qed.

Lemma in_range_members (m : gmap string (json float)) :
  in_range (JObj (members m)) = true ↔ ∀ k v, m !! k = Some v → in_range v = true.
Proof.
  simpl. rewrite forallb_forall. split.
  - intros Hall k v Hk. apply elem_of_members, list_elem_of_In in Hk. exact (Hall _ Hk).
  - intros Hm [k v] Hin. apply list_elem_of_In, elem_of_members in Hin. exact (Hm _ _ Hin).
Qed.

Lemma to_interface_in_range j : in_range (to_interface j) = true.
Proof.
  induction j as [| b | x | s | items IH | kvs IH] using json_ind; simpl; try done.
  - by destruct (is_finite x) eqn:Hx.
  - rewrite forallb_forall. intros v Hv. apply list_elem_of_In, list_elem_of_fmap in Hv.
    destruct Hv as (j & -> & Hj). rewrite Forall_forall in IH. by apply IH.
  - change (in_range (JObj (members (obj_map (map (λ kv, (kv.1, to_interface kv.2)) kvs)))) = true).
    apply in_range_members. intros k v. rewrite obj_map_lookup, member_map.
    destruct (member k kvs) as [j |] eqn:Hk; simpl; [| done]. intros [= <-].
    apply member_elem_of in Hk. rewrite Forall_forall in IH. exact (IH _ Hk).
Qed.

Lemma to_interface_tag j :
  in_range j = true →
  match j with
  | JNull => to_interface j = JNull
  | JBool b => to_interface j = JBool b
  | JNum x => to_interface j = JNum x
  | JStr s => to_interface j = JStr s
  | JArr items => to_interface j = JArr (map to_interface items)
  | JObj kvs => to_interface j = JObj (members (obj_map (map (λ kv, (kv.1, to_interface kv.2)) kvs)))
  end.
Proof. destruct j; simpl; try done. by intros ->. Qed.

Lemma objectInterface_lookup kvs k :
  objectInterface kvs !! k = to_interface <$> member k kvs.
Proof. unfold objectInterface. by rewrite obj_map_lookup, member_map. Qed.

Lemma objectInterface_in_range kvs k v : objectInterface kvs !! k = Some v → in_range v = true.
Proof.
  rewrite objectInterface_lookup. destruct (member k kvs); simpl; [| done].
  intros [= <-]. apply to_interface_in_range.
Qed.

Section normal_form.
Context `{HistoryCodec}.

Lemma decode_toolResponse_split cur his (i : toolResponse) :
  decode_toolResponse (JObj [("current", cur); ("history", his)]) i =
    m ← decode_Current cur (Current i);
    h ← decode_History_slice his;
    Ok (mktoolResponse _ m h).
Proof.
  unfold decode_toolResponse. cbn [foldM].
  change (toolResponse_set i ("current", cur))
    with (m ← decode_Current cur (Current i); Ok (mktoolResponse _ m (History i))).
  destruct (decode_Current cur (Current i)) as [m | e]; [| done].
  cbn [mbind result_bind].
  change (toolResponse_set (mktoolResponse _ m (History i)) ("history", his))
    with (h ← decode_History_slice his; Ok (mktoolResponse _ m h)).
  by destruct (decode_History_slice his).
Qed.

(** [UnmarshalJSON] on an object, step by step. *)
Lemma UnmarshalJSON_object kvs (r : ToolResponse.t) :
  ToolResponse.UnmarshalJSON (Document (JObj kvs)) r =
    if in_range (JObj kvs) then
      match
        m ← decode_Current (JObj (members (delete "history" (objectInterface kvs)))) ∅;
        h ← decode_History_slice (default JNull (objectInterface kvs !! "history"));
        Ok (mktoolResponse _ m h)
      with
      | Ok i => (i, None)
      | Err e => (r, Some e)
      end
    else (r, Some UnmarshalTypeError).
Proof.
  unfold ToolResponse.UnmarshalJSON, Unmarshal_map.
  destruct (in_range (JObj kvs)) eqn:Hkvs; [| done].
  cbn [default mbind option_bind fmap option_fmap option_map from_option].
  set (cur := JObj (members (delete "history" (objectInterface kvs)))).
  set (his := default JNull (objectInterface kvs !! "history")).
  assert (in_range (JObj [("current", cur); ("history", his)]) = true) as Hdoc.
  { simpl. rewrite !andb_true_r. apply andb_true_iff. split.
    - apply in_range_members. intros k v. rewrite lookup_delete_Some.
      intros [_ Hk]. by eapply objectInterface_in_range.
    - unfold his. destruct (objectInterface kvs !! "history") eqn:Hh; simpl; [| done].
      by eapply objectInterface_in_range. }
  unfold Marshal. rewrite Hdoc. unfold Unmarshal_toolResponse.
  rewrite decode_toolResponse_split.
  change (Current zero_toolResponse) with (∅ : gmap string CurrentState).
  by destruct (m ← decode_Current cur ∅; h ← decode_History_slice his; Ok (mktoolResponse _ m h)).
Qed.

End normal_form.

(** ** The typed decoders on member lists without duplicates *)

Lemma decode_float64_numeric v old :
  numeric_member (Some v) = true → decode_float64 v old = Ok (number_or old (Some v)).
Proof. by destruct v. Qed.

Lemma member_cons_ne {A : Type} k k' (v : A) kvs :
  k' ≠ k → member k ((k', v) :: kvs) = member k kvs.
Proof. intros Hne. simpl. destruct (member k kvs); [done |]. by rewrite decide_False. Qed.

Lemma member_cons_fresh {A : Type} k (v : A) kvs :
  k ∉ kvs.*1 → member k ((k, v) :: kvs) = Some v.
Proof. intros Hk%member_None. simpl. rewrite Hk. by rewrite decide_True. Qed.

(** On plain keys, matching a tag is being the tag. *)
Lemma key_matches_refl tag : key_matches tag tag = true.
Proof. apply String.eqb_refl. Qed.

Lemma key_matches_plain tag k :
  tag ∈ ["actual"; "target"; "offset"] → plain_key k = true →
  key_matches tag k = bool_decide (k = tag).
Proof.
  intros Htag%list_elem_of_In Hk. unfold plain_key in Hk. rewrite forallb_forall in Hk.
  specialize (Hk tag Htag). destruct (key_matches tag k) eqn:Hm; cbn [implb] in Hk.
  - apply String.eqb_eq in Hk. by rewrite bool_decide_eq_true_2.
  - symmetry. apply bool_decide_eq_false_2. intros ->. by rewrite key_matches_refl in Hm.
Qed.

Lemma CurrentState_set_plain s k v :
  plain_key k = true →
  CurrentState_set s (k, v) =
    if decide (k = "actual") then
      x ← decode_float64 v (Actual s); Ok (mkCurrentState x (Target s) (Offset s))
    else if decide (k = "target") then
      x ← decode_float64 v (Target s); Ok (mkCurrentState (Actual s) x (Offset s))
    else if decide (k = "offset") then
      x ← decode_float64 v (Offset s); Ok (mkCurrentState (Actual s) (Target s) x)
    else Ok s.
Proof.
  intros Hk. unfold CurrentState_set. cbn [fst snd].
  rewrite (key_matches_plain "actual"), (key_matches_plain "target"),
    (key_matches_plain "offset") by first [done | do 3 constructor].
  by repeat case_bool_decide; repeat case_decide.
Qed.

Lemma CurrentState_set_other s k v :
  plain_key k = true →
  k ≠ "actual" → k ≠ "target" → k ≠ "offset" → CurrentState_set s (k, v) = Ok s.
Proof. intros. rewrite CurrentState_set_plain by done. by rewrite !decide_False. Qed.

Lemma plain_keys_cons {A : Type} k (v : A) kvs :
  plain_keys ((k, v) :: kvs) = true ↔ plain_key k = true ∧ plain_keys kvs = true.
Proof. unfold plain_keys. cbn [forallb fst]. apply andb_true_iff. Qed.

Lemma plain_keys_elem_of {A : Type} (kvs : list (string * A)) :
  plain_keys kvs = true ↔ ∀ k, k ∈ kvs.*1 → plain_key k = true.
Proof.
  unfold plain_keys. rewrite forallb_forall. split.
  - intros Hall k ([k' v] & -> & Hin%list_elem_of_In)%list_elem_of_fmap. exact (Hall _ Hin).
  - intros Hall [k v] Hin%list_elem_of_In. apply Hall, list_elem_of_fmap. by exists (k, v).
Qed.

Lemma foldM_CurrentState_set kvs s :
  NoDup kvs.*1 → plain_keys kvs = true →
  numeric_member (member "actual" kvs) = true →
  numeric_member (member "target" kvs) = true →
  numeric_member (member "offset" kvs) = true →
  foldM CurrentState_set s kvs =
    Ok (mkCurrentState (number_or (Actual s) (member "actual" kvs))
                       (number_or (Target s) (member "target" kvs))
                       (number_or (Offset s) (member "offset" kvs))).
Proof.
  revert s. induction kvs as [| [k v] kvs IH]; intros s Hnd Hplain; [by destruct s |].
  apply NoDup_cons in Hnd as [Hk Hnd]. cbn [fst] in Hk.
  apply plain_keys_cons in Hplain as [Hpk Hplain].
  pose proof Hk as Hnone%member_None.
  cbn [foldM].
  destruct (decide (k = "actual")) as [-> | Ha].
  { rewrite member_cons_fresh, !member_cons_ne by done. intros Hv Ht Ho.
    change (CurrentState_set s ("actual", v))
      with (x ← decode_float64 v (Actual s); Ok (mkCurrentState x (Target s) (Offset s))).
    rewrite (decode_float64_numeric _ _ Hv). cbn [mbind result_bind].
    rewrite IH by (done || by rewrite Hnone). cbn [Actual Target Offset]. by rewrite Hnone. }
  destruct (decide (k = "target")) as [-> | Ht].
  { rewrite member_cons_fresh, !member_cons_ne by done. intros Ha' Hv Ho.
    change (CurrentState_set s ("target", v))
      with (x ← decode_float64 v (Target s); Ok (mkCurrentState (Actual s) x (Offset s))).
    rewrite (decode_float64_numeric _ _ Hv). cbn [mbind result_bind].
    rewrite IH by (done || by rewrite Hnone). cbn [Actual Target Offset]. by rewrite Hnone. }
  destruct (decide (k = "offset")) as [-> | Ho].
  { rewrite member_cons_fresh, !member_cons_ne by done. intros Ha' Ht' Hv.
    change (CurrentState_set s ("offset", v))
      with (x ← decode_float64 v (Offset s); Ok (mkCurrentState (Actual s) (Target s) x)).
    rewrite (decode_float64_numeric _ _ Hv). cbn [mbind result_bind].
    rewrite IH by (done || by rewrite Hnone). cbn [Actual Target Offset]. by rewrite Hnone. }
  rewrite !member_cons_ne by done. rewrite CurrentState_set_other by done.
  cbn [mbind result_bind]. by apply IH.
Qed.

Lemma numeric_member_to_interface o :
  numeric_member o = true → numeric_member (to_interface <$> o) = true.
Proof. destruct o as [[] |]; simpl; try done. by destruct (is_finite n). Qed.

Lemma number_or_to_interface kvs name :
  in_range (JObj kvs) = true →
  number_or 0 (to_interface <$> member name kvs) = number_or_zero (member name kvs).
Proof.
  intros Hkvs. destruct (member name kvs) as [v |] eqn:Hv; [| done].
  pose proof (in_range_member _ _ _ Hkvs Hv) as Hr.
  pose proof (to_interface_tag _ Hr) as Htag.
  destruct v; cbn [fmap option_fmap option_map]; rewrite Htag; done.
Qed.

Lemma state_of_to_interface v : in_range v = true → state_of (to_interface v) = state_of v.
Proof.
  intros Hr. pose proof (to_interface_tag _ Hr) as Htag.
  destruct v as [| | | | | kvs]; rewrite Htag; try done.
  unfold state_of. rewrite !member_members, !obj_map_lookup, !member_map.
  unfold number_or_zero at 1 2 3. by rewrite !number_or_to_interface.
Qed.

Lemma plain_keys_members {A : Type} (m : gmap string A) :
  plain_keys (members m) = true ↔ ∀ k, is_Some (m !! k) → plain_key k = true.
Proof.
  rewrite plain_keys_elem_of. split.
  - intros Hall k [v Hv%elem_of_members]. apply Hall, list_elem_of_fmap. by exists (k, v).
  - intros Hall k ([k' v] & -> & Hin%elem_of_members)%list_elem_of_fmap. apply Hall. by exists v.
Qed.

Lemma plain_keys_to_interface kvs :
  plain_keys kvs = true →
  plain_keys (members (obj_map (map (λ kv, (kv.1, to_interface kv.2)) kvs))) = true.
Proof.
  intros Hplain. apply plain_keys_members. intros k [v' Hv'].
  rewrite obj_map_lookup, member_map in Hv'.
  destruct (member k kvs) as [v |] eqn:Hv; [| done].
  apply member_elem_of in Hv. eapply plain_keys_elem_of; [done |].
  apply list_elem_of_fmap. by exists (k, v).
Qed.

Lemma decode_CurrentState_to_interface v :
  in_range v = true → tool_entry v = true →
  decode_CurrentState (to_interface v) zero_CurrentState = Ok (state_of v).
Proof.
  intros Hr Hv. destruct v as [| | | | | kvs]; try done.
  rewrite (to_interface_tag _ Hr). unfold decode_CurrentState, state_of.
  cbn [tool_entry] in Hv. rewrite !andb_true_iff in Hv. destruct Hv as [[[Hplain Ha] Ht] Ho].
  rewrite foldM_CurrentState_set.
  - rewrite !member_members, !obj_map_lookup, !member_map.
    by rewrite !number_or_to_interface.
  - apply members_NoDup.
  - by apply plain_keys_to_interface.
  - rewrite member_members, obj_map_lookup, member_map. by apply numeric_member_to_interface.
  - rewrite member_members, obj_map_lookup, member_map. by apply numeric_member_to_interface.
  - rewrite member_members, obj_map_lookup, member_map. by apply numeric_member_to_interface.
Qed.

Lemma foldM_insert_Ok {A B : Type} (f : A → result B) (g : A → B)
    (kvs : list (string * A)) (m : gmap string B) :
  (∀ k v, (k, v) ∈ kvs → f v = Ok (g v)) →
  foldM (λ m kv, s ← f kv.2; Ok (<[kv.1 := s]> m)) m kvs =
    Ok (foldl (λ m kv, <[kv.1 := kv.2]> m) m (map (λ kv, (kv.1, g kv.2)) kvs)).
Proof.
  revert m. induction kvs as [| [k v] kvs IH]; intros m Hf; [done |].
  cbn [foldM map foldl fst snd]. rewrite (Hf k v) by left.
  cbn [mbind result_bind]. apply IH. intros k' v' Hin. apply (Hf k' v'). by right.
Qed.

Lemma decode_Current_members (g : json float → CurrentState) (m : gmap string (json float)) :
  (∀ k v, m !! k = Some v → decode_CurrentState v zero_CurrentState = Ok (g v)) →
  decode_Current (JObj (members m)) ∅ = Ok (g <$> m).
Proof.
  intros Hg. unfold decode_Current.
  etrans; [apply (foldM_insert_Ok (λ v, decode_CurrentState v zero_CurrentState) g) |].
  - intros k v Hin. apply elem_of_members in Hin. by eapply Hg.
  - f_equal. apply map_eq; intros k.
    rewrite foldl_insert_lookup, member_map, member_members, lookup_fmap, lookup_empty.
    by destruct (m !! k).
Qed.

(** A successful decode, read backwards. *)

Lemma decode_float64_Ok v old x : decode_float64 v old = Ok x → numeric_member (Some v) = true.
Proof. by destruct v. Qed.

Lemma foldM_CurrentState_set_numeric kvs s s' name :
  name ∈ ["actual"; "target"; "offset"] →
  NoDup kvs.*1 → plain_keys kvs = true → foldM CurrentState_set s kvs = Ok s' →
  numeric_member (member name kvs) = true.
Proof.
  intros Hname. revert s. induction kvs as [| [k v] kvs IH]; intros s Hnd Hplain; [done |].
  apply NoDup_cons in Hnd as [Hk Hnd]. cbn [fst] in Hk. cbn [foldM].
  apply plain_keys_cons in Hplain as [Hpk Hplain].
  destruct (CurrentState_set s (k, v)) as [s1 |] eqn:Hset; [| done].
  cbn [mbind result_bind]. intros Hrest. specialize (IH _ Hnd Hplain Hrest).
  destruct (decide (k = name)) as [-> | Hne]; [| by rewrite member_cons_ne].
  rewrite member_cons_fresh by done. rewrite CurrentState_set_plain in Hset by done.
  repeat case_decide; subst;
    try (destruct (decode_float64 v _) eqn:Hx; [by eapply decode_float64_Ok | done]).
  exfalso. rewrite !elem_of_cons, elem_of_nil in Hname.
  destruct Hname as [? | [? | [? | []]]]; done.
Qed.

Lemma decode_CurrentState_members (m : gmap string (json float)) s :
  plain_keys (members m) = true →
  decode_CurrentState (JObj (members m)) zero_CurrentState = Ok s →
  s = mkCurrentState (number_or 0 (m !! "actual")) (number_or 0 (m !! "target"))
                     (number_or 0 (m !! "offset")).
Proof.
  cbn [decode_CurrentState]. intros Hplain Hs.
  rewrite foldM_CurrentState_set in Hs.
  - rewrite !member_members in Hs. by injection Hs as <-.
  - apply members_NoDup.
  - done.
  - eapply foldM_CurrentState_set_numeric; [| apply members_NoDup | done ..]. by left.
  - eapply foldM_CurrentState_set_numeric; [| apply members_NoDup | done ..]. by right; left.
  - eapply foldM_CurrentState_set_numeric; [| apply members_NoDup | done ..].
    by right; right; left.
Qed.

Lemma foldM_insert_all_Ok {A B : Type} (f : A → result B)
    (kvs : list (string * A)) (m m' : gmap string B) :
  foldM (λ m kv, s ← f kv.2; Ok (<[kv.1 := s]> m)) m kvs = Ok m' →
  ∀ k v, (k, v) ∈ kvs → ∃ s, f v = Ok s.
Proof.
  revert m. induction kvs as [| [k v] kvs IH]; intros m; cbn [foldM fst snd].
  - intros _ k v. by rewrite elem_of_nil.
  - destruct (f v) as [s |] eqn:Hv; [| done]. cbn [mbind result_bind].
    intros Hrest k' v' [[= -> ->] | Hin]%elem_of_cons; [by eexists | by eapply IH].
Qed.

Lemma decode_Current_members_lookup (m : gmap string (json float)) cur k v :
  decode_Current (JObj (members m)) ∅ = Ok cur → m !! k = Some v →
  ∃ s, cur !! k = Some s ∧ decode_CurrentState v zero_CurrentState = Ok s.
Proof.
  intros Hcur Hk.
  set (g v := match decode_CurrentState v zero_CurrentState with
              | Ok s => s
              | Err _ => zero_CurrentState
              end).
  assert (∀ k v, m !! k = Some v → decode_CurrentState v zero_CurrentState = Ok (g v)) as Hg.
  { intros k' v' Hin%elem_of_members.
    destruct (foldM_insert_all_Ok (λ v, decode_CurrentState v zero_CurrentState)
                _ _ _ Hcur _ _ Hin) as [s Hs].
    unfold g. by rewrite Hs. }
  rewrite (decode_Current_members g m Hg) in Hcur. injection Hcur as <-.
  exists (g v). split; [by rewrite lookup_fmap, Hk | by eapply Hg].
Qed.

Section history_lemmas.
Context `{HistoryCodec}.

Lemma decode_History_ptr_to_interface item :
  in_range item = true → history_item item = true →
  decode_History_ptr (to_interface item) = Ok (entry_of item).
Proof.
  intros Hr Hitem. pose proof (to_interface_tag _ Hr) as Htag.
  unfold decode_History_ptr, entry_of, history_item in *.
  destruct item; try done; rewrite Htag in *;
    by destruct (decode_History _).
Qed.

Lemma mapM_decode_History_ptr items :
  in_range (JArr items) = true → forallb history_item items = true →
  mapM decode_History_ptr (map to_interface items) = Ok (entry_of <$> items).
Proof.
  induction items as [| item items IH]; [done |].
  cbn [forallb in_range]. fold in_range.
  intros [Hr Hrs]%andb_true_iff [Hitem Hitems]%andb_true_iff.
  cbn [map mapM]. rewrite decode_History_ptr_to_interface by done.
  cbn [mbind result_bind]. rewrite IH by done. done.
Qed.

Lemma decode_History_slice_valid kvs :
  in_range (JObj kvs) = true → history_value (member "history" kvs) = true →
  decode_History_slice (default JNull (objectInterface kvs !! "history")) =
    Ok (history_of (member "history" kvs)).
Proof.
  intros Hkvs Hh. rewrite objectInterface_lookup.
  destruct (member "history" kvs) as [v |] eqn:Hv; [| done].
  pose proof (in_range_member _ _ _ Hkvs Hv) as Hr.
  pose proof (to_interface_tag _ Hr) as Htag.
  destruct v as [| | | | items |]; try done; cbn [fmap option_fmap option_map default].
  rewrite Htag. by apply mapM_decode_History_ptr.
Qed.

Lemma valid_payload_inv kvs :
  valid_payload kvs = true →
  in_range (JObj kvs) = true ∧
  (∀ k v, k ≠ "history" → member k kvs = Some v → tool_entry v = true) ∧
  history_value (member "history" kvs) = true.
Proof.
  unfold valid_payload. intros [[Hr Hall]%andb_true_iff Hh]%andb_true_iff.
  split_and!; [done | | done]. intros k v Hk Hv.
  rewrite forallb_forall in Hall. apply member_elem_of, list_elem_of_In, Hall in Hv.
  cbn [fst snd] in Hv. by rewrite bool_decide_eq_false_2 in Hv.
Qed.

(** [UnmarshalJSON] on a valid payload. *)
Lemma UnmarshalJSON_valid kvs (r : ToolResponse.t) :
  valid_payload kvs = true →
  ToolResponse.UnmarshalJSON (Document (JObj kvs)) r =
    (mktoolResponse _ (state_of <$> delete "history" (objectInterface kvs))
                      (history_of (member "history" kvs)), None).
Proof.
  intros (Hr & Htools & Hh)%valid_payload_inv.
  rewrite UnmarshalJSON_object, Hr.
  rewrite (decode_Current_members state_of).
  - cbn [mbind result_bind]. by rewrite decode_History_slice_valid.
  - intros k v' [Hk Hv']%lookup_delete_Some. rewrite objectInterface_lookup in Hv'.
    destruct (member k kvs) as [v |] eqn:Hv; [| done]. injection Hv' as <-.
    pose proof (in_range_member _ _ _ Hr Hv) as Hrv.
    rewrite state_of_to_interface by done.
    apply decode_CurrentState_to_interface; [done |]. by eapply Htools.
Qed.

End history_lemmas.

Lemma valid_Current_lookup kvs k :
  in_range (JObj kvs) = true → k ≠ "history" →
  (state_of <$> delete "history" (objectInterface kvs)) !! k = state_of <$> member k kvs.
Proof.
  intros Hr Hk. rewrite lookup_fmap, lookup_delete_ne, objectInterface_lookup by done.
  destruct (member k kvs) as [v |] eqn:Hv; [| done]. cbn.
  f_equal. apply state_of_to_interface. by eapply in_range_member.
Qed.

Lemma valid_Current_dom kvs :
  in_range (JObj kvs) = true → member "history" kvs = None →
  dom (state_of <$> delete "history" (objectInterface kvs)) = list_to_set kvs.*1.
Proof.
  intros Hr Hnone. apply set_eq; intros k. rewrite elem_of_dom, elem_of_list_to_set.
  destruct (decide (k = "history")) as [-> | Hk].
  - rewrite lookup_fmap, lookup_delete_eq. apply member_None in Hnone.
    split; [by intros [? ?] | done].
  - rewrite valid_Current_lookup by done. destruct (member k kvs) as [v |] eqn:Hv.
    + split; [intros _ | by eexists].
      apply member_elem_of in Hv. apply list_elem_of_fmap. by exists (k, v).
    + apply member_None in Hv. split; [by intros [? ?] | done].
Qed.

(** * The normalizer *)

(** C1: on a valid tool-state payload [UnmarshalJSON] succeeds and splits
    the keys exactly: every key other than history is in [Current] with the
    state its value denotes, no other key is, the history key is not, and
    [History] is the history array item by item, in order. *)
Theorem normalize_partitions_keys `{HistoryCodec} kvs (r : ToolResponse.t) :
  valid_payload kvs = true →
  ∃ r' : ToolResponse.t,
    ToolResponse.UnmarshalJSON (Document (JObj kvs)) r = (r', None) ∧
    (∀ k, k ≠ "history" → Current r' !! k = state_of <$> member k kvs) ∧
    Current r' !! "history" = None ∧
    History r' = history_of (member "history" kvs).
Proof.
  intros Hvalid. pose proof (valid_payload_inv _ Hvalid) as (Hr & _ & _).
  eexists. split; [by apply UnmarshalJSON_valid |]. cbn [Current History].
  split_and!; [| | done].
  - intros k Hk. by apply valid_Current_lookup.
  - by rewrite lookup_fmap, lookup_delete_eq.
Qed.

Lemma normalize_partitions_keys_witness :
  @valid_payload snapshots scenario_payload = true ∧
  ∃ r' : @toolResponse snapshots,
    ToolResponse.UnmarshalJSON (Document (JObj scenario_payload)) zero_toolResponse = (r', None) ∧
    (∀ k, k ≠ "history" → Current r' !! k = state_of <$> member k scenario_payload) ∧
    Current r' !! "history" = None ∧
    History r' = history_of (member "history" scenario_payload).
Proof.
  split; [vm_compute; reflexivity |].
  apply (@normalize_partitions_keys snapshots). vm_compute; reflexivity.
Defined.

(** The spec's scenario, evaluated. *)
Example scenario_normalizes :
  @ToolResponse.UnmarshalJSON snapshots (Document (JObj scenario_payload)) zero_toolResponse =
    (mktoolResponse snapshots {["tool0" := mkCurrentState 200.1 210 0]}
                    [Some (mkSnapshot 199 210 1000)], None).
Proof. vm_compute. reflexivity. Qed.

(** C2, as stated, fails: an object without a history key whose entry is
    not a tool state is refused by the typed decoder. *)
Lemma no_history_key_can_fail :
  member "history" [("tool0", JNum 5%float)] = None ∧
  @ToolResponse.UnmarshalJSON snapshots (Document (JObj [("tool0", JNum 5%float)]))
      zero_toolResponse = (zero_toolResponse, Some UnmarshalTypeError).
Proof. split; vm_compute; reflexivity. Qed.

(** C2, amended: a valid payload without a history key normalizes without
    error to an empty history and a [Current] with exactly the payload's
    keys; the empty object gives the empty response. *)
Theorem no_history_normalizes `{HistoryCodec} kvs (r : ToolResponse.t) :
  valid_payload kvs = true → member "history" kvs = None →
  ∃ r' : ToolResponse.t,
    ToolResponse.UnmarshalJSON (Document (JObj kvs)) r = (r', None) ∧
    History r' = [] ∧
    dom (Current r') = list_to_set kvs.*1 ∧
    (kvs = [] → r' = zero_toolResponse).
Proof.
  intros Hvalid Hnone. pose proof (valid_payload_inv _ Hvalid) as (Hr & _ & _).
  eexists. split; [by apply UnmarshalJSON_valid |]. cbn [Current History].
  split_and!; [by rewrite Hnone | by apply valid_Current_dom | by intros ->].
Qed.

Lemma no_history_normalizes_witness :
  ∃ r' : @toolResponse snapshots,
    ToolResponse.UnmarshalJSON (Document (JObj [])) zero_toolResponse = (r', None) ∧
    History r' = [] ∧
    dom (Current r') = list_to_set ([] : list (string * json float)).*1 ∧
    (([] : list (string * json float)) = [] → r' = zero_toolResponse).
Proof.
  apply (@no_history_normalizes snapshots); vm_compute; reflexivity.
Defined.

(** C8, as stated, fails: the decoder matches the key of a member with a
    field in any letter case, so an entry that has no member actual can
    still give the field a number.  Here the entry has the member Actual
    only, and the field is 5, not zero. *)
Lemma folded_key_reaches_field :
  member "actual" [("Actual", JNum 5%float)] = None ∧
  @ToolResponse.UnmarshalJSON snapshots
      (Document (JObj [("tool0", JObj [("Actual", JNum 5%float)])])) zero_toolResponse =
    (mktoolResponse snapshots {["tool0" := mkCurrentState 5 0 0]} [], None).
Proof. split; vm_compute; reflexivity. Qed.

(** C8, amended: a tool entry that is an object whose keys, where they
    name a field at all, name it in the letters of its tag, keeps its
    actual, target and offset in the normalized [Current], and a field the
    entry does not have is zero there; a valid payload is decoded without
    error whichever of the three its entries lack. *)
Theorem tool_entry_fields_survive `{HistoryCodec} kvs (r : ToolResponse.t) k fields :
  k ≠ "history" → member k kvs = Some (JObj fields) → plain_keys fields = true →
  (∀ r' : ToolResponse.t,
     ToolResponse.UnmarshalJSON (Document (JObj kvs)) r = (r', None) →
     ∃ s : CurrentState,
       Current r' !! k = Some s ∧
       (∀ x, member "actual" fields = Some (JNum x) → Actual s = x) ∧
       (∀ x, member "target" fields = Some (JNum x) → Target s = x) ∧
       (∀ x, member "offset" fields = Some (JNum x) → Offset s = x) ∧
       (member "actual" fields = None → Actual s = 0%float) ∧
       (member "target" fields = None → Target s = 0%float) ∧
       (member "offset" fields = None → Offset s = 0%float)) ∧
  (valid_payload kvs = true →
     ∃ r' : ToolResponse.t, ToolResponse.UnmarshalJSON (Document (JObj kvs)) r = (r', None)).
Proof.
  intros Hk Hfields Hplain. split; [| intros Hvalid; eexists; by apply UnmarshalJSON_valid].
  intros r'. rewrite UnmarshalJSON_object.
  destruct (in_range (JObj kvs)) eqn:Hr; [| done].
  destruct (decode_Current _ _) as [cur |] eqn:Hcur; [| done]. cbn [mbind result_bind].
  destruct (decode_History_slice _) as [hs |]; [| done]. intros [= <-]. cbn [Current].
  pose proof (in_range_member _ _ _ Hr Hfields) as Hrf.
  destruct (decode_Current_members_lookup _ _ k (to_interface (JObj fields)) Hcur)
    as (s & Hs & Hdec).
  { by rewrite lookup_delete_ne, objectInterface_lookup, Hfields. }
  exists s. split; [done |]. rewrite (to_interface_tag _ Hrf) in Hdec.
  apply decode_CurrentState_members in Hdec; [| by apply plain_keys_to_interface].
  subst s. cbn [Actual Target Offset].
  rewrite !obj_map_lookup, !member_map, !number_or_to_interface by done.
  unfold number_or_zero.
  split_and!; by intros; simplify_eq/=; repeat match goal with H : _ = _ |- _ => rewrite H end.
Qed.

Lemma tool_entry_fields_survive_witness :
  (∀ r' : @toolResponse snapshots,
     ToolResponse.UnmarshalJSON
       (Document (JObj [("tool0", JObj [("actual", JNum 200.1%float)]);
                        ("bed", JObj [("target", JNum 60%float)])])) zero_toolResponse
       = (r', None) →
     ∃ s : CurrentState,
       Current r' !! "tool0" = Some s ∧
       (∀ x, member "actual" [("actual", JNum 200.1%float)] = Some (JNum x) → Actual s = x) ∧
       (∀ x, member "target" [("actual", JNum 200.1%float)] = Some (JNum x) → Target s = x) ∧
       (∀ x, member "offset" [("actual", JNum 200.1%float)] = Some (JNum x) → Offset s = x) ∧
       (member "actual" [("actual", JNum 200.1%float)] = None → Actual s = 0%float) ∧
       (member "target" [("actual", JNum 200.1%float)] = None → Target s = 0%float) ∧
       (member "offset" [("actual", JNum 200.1%float)] = None → Offset s = 0%float)) ∧
  (@valid_payload snapshots
     [("tool0", JObj [("actual", JNum 200.1%float)]);
      ("bed", JObj [("target", JNum 60%float)])] = true →
   ∃ r' : @toolResponse snapshots,
     ToolResponse.UnmarshalJSON
       (Document (JObj [("tool0", JObj [("actual", JNum 200.1%float)]);
                        ("bed", JObj [("target", JNum 60%float)])])) zero_toolResponse
       = (r', None)).
Proof.
  apply (@tool_entry_fields_survive snapshots); [done | reflexivity | reflexivity].
Defined.

(** An entry with only an actual temperature, evaluated. *)
Example absent_fields_are_zero :
  @ToolResponse.UnmarshalJSON snapshots
      (Document (JObj [("tool0", JObj [("actual", JNum 200.1%float)])])) zero_toolResponse =
    (mktoolResponse snapshots {["tool0" := mkCurrentState 200.1 0 0]} [], None).
Proof. vm_compute. reflexivity. Qed.

Section normalizer_facts.
Context `{HistoryCodec}.

Lemma UnmarshalJSON_no_history kvs (r r' : ToolResponse.t) :
  member "history" kvs = None →
  ToolResponse.UnmarshalJSON (Document (JObj kvs)) r = (r', None) → History r' = [].
Proof.
  intros Hnone. rewrite UnmarshalJSON_object, objectInterface_lookup, Hnone.
  destruct (in_range (JObj kvs)); [| done].
  destruct (decode_Current _ _) as [m | e]; [| done]. cbn. by intros [= <-].
Qed.

Lemma in_range_insert_null l1 l2 :
  in_range (JObj (l1 ++ ("history", JNull) :: l2)) = in_range (JObj (l1 ++ l2)).
Proof. cbn [in_range]. by rewrite !forallb_app. Qed.

Lemma objectInterface_insert_null l1 l2 :
  delete "history" (objectInterface (l1 ++ ("history", JNull) :: l2)) =
    delete "history" (objectInterface (l1 ++ l2)).
Proof.
  apply map_eq; intros k. destruct (decide (k = "history")) as [-> | Hk].
  - by rewrite !lookup_delete_eq.
  - rewrite !lookup_delete_ne, !objectInterface_lookup by done.
    rewrite !member_app, member_cons_ne by done. done.
Qed.

End normalizer_facts.

(** C9: a history key mapped to null gives exactly the result of the same
    payload without a history key, with an empty history whenever that
    result is a success. *)
Theorem history_null_is_absent `{HistoryCodec} l1 l2 (r : ToolResponse.t) :
  "history" ∉ (l1 ++ l2).*1 →
  ToolResponse.UnmarshalJSON (Document (JObj (l1 ++ ("history", JNull) :: l2))) r =
    ToolResponse.UnmarshalJSON (Document (JObj (l1 ++ l2))) r ∧
  ∀ r', ToolResponse.UnmarshalJSON (Document (JObj (l1 ++ l2))) r = (r', None) →
        History r' = [].
Proof.
  intros Hnone%member_None. split; [| intros r'; by apply UnmarshalJSON_no_history].
  rewrite !UnmarshalJSON_object, in_range_insert_null, objectInterface_insert_null.
  rewrite !objectInterface_lookup, Hnone.
  rewrite member_app in Hnone. rewrite member_app.
  destruct (member "history" l2) eqn:Hl2; [done |].
  by rewrite member_cons_fresh by by apply member_None.
Qed.

Lemma history_null_is_absent_witness :
  @ToolResponse.UnmarshalJSON snapshots
      (Document (JObj ([("tool0", JObj [("actual", JNum 200.1%float)])] ++
                       ("history", JNull) :: [("bed", JObj [("target", JNum 60%float)])])))
      zero_toolResponse =
    ToolResponse.UnmarshalJSON
      (Document (JObj ([("tool0", JObj [("actual", JNum 200.1%float)])] ++
                       [("bed", JObj [("target", JNum 60%float)])])))
      zero_toolResponse ∧
  ∀ r', @ToolResponse.UnmarshalJSON snapshots
          (Document (JObj ([("tool0", JObj [("actual", JNum 200.1%float)])] ++
                           [("bed", JObj [("target", JNum 60%float)])])))
          zero_toolResponse = (r', None) →
        History r' = [].
Proof.
  apply (@history_null_is_absent snapshots). vm_compute.
  intros Hin. repeat (apply elem_of_cons in Hin as [Hin | Hin]; [discriminate |]).
  by apply elem_of_nil in Hin.
Defined.

(** C10: when [UnmarshalJSON] returns an error, at the first parse or at
    the decode of the intermediate object, the receiver holds what it held
    before; the same input fails in the same way on any receiver and leaves
    it as it was. *)
Theorem UnmarshalJSON_error_keeps_receiver `{HistoryCodec} b (r r' : ToolResponse.t) e :
  ToolResponse.UnmarshalJSON b r = (r', Some e) →
  r' = r ∧ ∀ r0 : ToolResponse.t, ToolResponse.UnmarshalJSON b r0 = (r0, Some e).
Proof.
  unfold ToolResponse.UnmarshalJSON.
  destruct (Unmarshal_map b) as [raw [e1 |]]; [by intros [= <- <-] |].
  destruct (Marshal _) as [b' ?].
  destruct (Unmarshal_toolResponse b' zero_toolResponse) as [i [e2 |]];
    [by intros [= <- <-] | by intros [= _]].
Qed.

Lemma UnmarshalJSON_error_keeps_receiver_witness :
  (@ToolResponse.UnmarshalJSON snapshots (Document (JObj [("tool0", JStr "hot")]))
     (mktoolResponse snapshots {["bed" := mkCurrentState 60 60 0]} [None])).1 =
  mktoolResponse snapshots {["bed" := mkCurrentState 60 60 0]} [None] ∧
  ∀ r0 : @toolResponse snapshots,
    ToolResponse.UnmarshalJSON (Document (JObj [("tool0", JStr "hot")])) r0 =
      (r0, Some UnmarshalTypeError).
Proof.
  apply (@UnmarshalJSON_error_keeps_receiver snapshots
           (Document (JObj [("tool0", JStr "hot")])) _ _ UnmarshalTypeError).
  vm_compute. reflexivity.
Defined.

(** * What a successful normalization returns *)

Lemma foldM_invariant {A B : Type} (P : A → Prop) (f : A → B → result A) l a a' :
  P a → (∀ a x a', x ∈ l → P a → f a x = Ok a' → P a') →
  foldM f a l = Ok a' → P a'.
Proof.
  revert a. induction l as [| x l IH]; intros a Ha Hstep; cbn [foldM].
  - by intros [= <-].
  - destruct (f a x) as [a1 |] eqn:Hfx; [| done]. cbn [mbind result_bind].
    apply IH.
    + eapply Hstep; [left | done | done].
    + intros a2 y a3 Hy. apply Hstep. by right.
Qed.

Lemma decode_float64_finite v old x :
  in_range v = true → is_finite old = true → decode_float64 v old = Ok x → is_finite x = true.
Proof. destruct v; simpl; try done; by intros ?? [= <-]. Qed.

Lemma CurrentState_set_finite s kv s' :
  in_range kv.2 = true → finite_state s → CurrentState_set s kv = Ok s' → finite_state s'.
Proof.
  intros Hr (Ha & Ht & Ho). unfold CurrentState_set.
  destruct (key_matches "actual" kv.1);
    [| destruct (key_matches "target" kv.1); [| destruct (key_matches "offset" kv.1)]].
  - destruct (decode_float64 _ _) as [x |] eqn:Hx; [| done].
    intros [= <-]. unfold finite_state; cbn [Actual Target Offset].
    split_and!; [| done | done]. exact (decode_float64_finite _ _ _ Hr Ha Hx).
  - destruct (decode_float64 _ _) as [x |] eqn:Hx; [| done].
    intros [= <-]. unfold finite_state; cbn [Actual Target Offset].
    split_and!; [done | | done]. exact (decode_float64_finite _ _ _ Hr Ht Hx).
  - destruct (decode_float64 _ _) as [x |] eqn:Hx; [| done].
    intros [= <-]. unfold finite_state; cbn [Actual Target Offset].
    split_and!; [done | done |]. exact (decode_float64_finite _ _ _ Hr Ho Hx).
  - by intros [= <-].
Qed.

Lemma decode_CurrentState_finite v s :
  in_range v = true → decode_CurrentState v zero_CurrentState = Ok s → finite_state s.
Proof.
  intros Hr. destruct v as [| | | | | kvs]; try done.
  - by intros [= <-].
  - cbn [decode_CurrentState]. apply foldM_invariant; [done |].
    intros s1 kv s2 Hkv. apply CurrentState_set_finite.
    cbn [in_range] in Hr. rewrite forallb_forall in Hr. apply Hr. by apply list_elem_of_In.
Qed.

Lemma decode_Current_members_inv (m : gmap string (json float)) cur :
  (∀ k v, m !! k = Some v → in_range v = true) →
  decode_Current (JObj (members m)) ∅ = Ok cur →
  ∀ k s, cur !! k = Some s → finite_state s ∧ is_Some (m !! k).
Proof.
  intros Hm. cbn [decode_Current].
  apply (foldM_invariant (λ cur, ∀ k s, cur !! k = Some s → finite_state s ∧ is_Some (m !! k))).
  - intros k s. by rewrite lookup_empty.
  - intros cur1 [k v] cur2 Hin%elem_of_members IH. cbn [fst snd].
    destruct (decode_CurrentState v zero_CurrentState) as [s |] eqn:Hs; [| done].
    intros [= <-] k' s'. destruct (decide (k = k')) as [<- | Hne].
    + rewrite lookup_insert_eq. intros [= <-]. split; [| by eexists].
      eapply decode_CurrentState_finite; [| done]. by eapply Hm.
    + rewrite lookup_insert_ne by done. apply IH.
Qed.

Section success.
Context `{HistoryCodec}.

Lemma mapM_decode_History_ptr_inv items hs h :
  mapM decode_History_ptr items = Ok hs → Some h ∈ hs →
  ∃ v, v ∈ items ∧ decode_History v = Ok h.
Proof.
  revert hs. induction items as [| v items IH]; intros hs; cbn [mapM].
  - intros [= <-]. by rewrite elem_of_nil.
  - destruct (decode_History_ptr v) as [o |] eqn:Hv; [| done]. cbn [mbind result_bind].
    destruct (mapM decode_History_ptr items) as [hs' |]; [| done].
    intros [= <-] [Ho | Hin]%elem_of_cons.
    + exists v. split; [left |]. subst o. unfold decode_History_ptr in Hv.
      destruct v; try done; by destruct (decode_History _) as [h' |]; simplify_eq/=.
    + destruct (IH _ eq_refl Hin) as (v' & Hv' & Hdec). exists v'. split; [by right | done].
Qed.

Lemma UnmarshalJSON_null (r : ToolResponse.t) :
  ToolResponse.UnmarshalJSON (Document JNull) r = (zero_toolResponse, None).
Proof. reflexivity. Qed.

Lemma UnmarshalJSON_normalized b (r r' : ToolResponse.t) :
  ToolResponse.UnmarshalJSON b r = (r', None) → normalized r'.
Proof.
  destruct b as [| [| | | | | kvs]]; try done.
  - rewrite UnmarshalJSON_null. intros [= <-]. split_and!; [done | |].
    + intros k s. cbn. by rewrite lookup_empty.
    + intros h. cbn. by rewrite elem_of_nil.
  - rewrite UnmarshalJSON_object. destruct (in_range (JObj kvs)); [| done].
    destruct (decode_Current _ _) as [cur |] eqn:Hcur; [| done]. cbn [mbind result_bind].
    destruct (decode_History_slice _) as [hs |] eqn:Hhs; [| done]. intros [= <-].
    cbn [mbind result_bind]. unfold normalized. cbn [Current History].
    assert (∀ k s, cur !! k = Some s →
              finite_state s ∧ is_Some (delete "history" (objectInterface kvs) !! k)) as Hinv.
    { eapply decode_Current_members_inv; [| done].
      intros k v [_ Hk]%lookup_delete_Some. by eapply objectInterface_in_range. }
    split_and!.
    + destruct (cur !! "history") as [s |] eqn:Hs; [| done].
      apply Hinv in Hs as [_ [v Hv]]. by rewrite lookup_delete_eq in Hv.
    + intros k s Hs. by apply Hinv in Hs as [? _].
    + intros h Hh.
      assert (in_range (default JNull (objectInterface kvs !! "history")) = true) as Hr.
      { destruct (objectInterface kvs !! "history") eqn:Hk; [| done].
        by eapply objectInterface_in_range. }
      destruct (default JNull (objectInterface kvs !! "history")) as [| | | | items |];
        try done; cbn [decode_History_slice] in Hhs.
      * injection Hhs as <-. by apply elem_of_nil in Hh.
      * destruct (mapM_decode_History_ptr_inv _ _ _ Hhs Hh) as (v & Hv & Hdec).
        exists v. split; [by eapply in_range_item | done].
Qed.

End success.



Section round_trip.
Context `{HistoryEncoder}.




End round_trip.







(** * The errors of the decoders *)

Lemma foldM_Err {A B : Type} (P : error → Prop) (f : A → B → result A) l a e :
  (∀ a x e, f a x = Err e → P e) → foldM f a l = Err e → P e.
Proof.
  intros Hf. revert a. induction l as [| x l IH]; intros a; cbn [foldM]; [done |].
  destruct (f a x) as [a' | e'] eqn:Hfx; cbn [mbind result_bind].
  - apply IH.
  - intros [= <-]. by eapply Hf.
Qed.

Lemma decode_float64_Err v old e : decode_float64 v old = Err e → is_decode_error e = true.
Proof. destruct v; try done; by intros [= <-]. Qed.

Lemma decode_CurrentState_Err v s e :
  decode_CurrentState v s = Err e → is_decode_error e = true.
Proof.
  destruct v as [| | | | | kvs]; try done; try by intros [= <-].
  cbn [decode_CurrentState]. apply (foldM_Err (λ e, is_decode_error e = true)).
  intros s1 kv e1. unfold CurrentState_set.
  repeat case_match; try done;
    by destruct (decode_float64 _ _) eqn:Hx; [| intros [= <-]; eapply decode_float64_Err].
Qed.

Lemma decode_Current_Err v old e : decode_Current v old = Err e → is_decode_error e = true.
Proof.
  destruct v as [| | | | | kvs]; try done; try by intros [= <-].
  cbn [decode_Current]. apply (foldM_Err (λ e, is_decode_error e = true)).
  intros m kv e1. destruct (decode_CurrentState _ _) eqn:Hs; [done |].
  intros [= <-]. by eapply decode_CurrentState_Err.
Qed.

Section error_kinds.
Context `{HistoryCodec}.

Lemma decode_History_slice_Err v e :
  decoder_errors_only → decode_History_slice v = Err e → is_decode_error e = true.
Proof.
  intros Hcodec. destruct v as [| | | | items |]; try done; try by intros [= <-].
  cbn [decode_History_slice]. induction items as [| v items IH]; cbn [mapM]; [done |].
  destruct (decode_History_ptr v) as [o | e'] eqn:Hv; cbn [mbind result_bind].
  - destruct (mapM decode_History_ptr items); [done |]. intros [= <-]. by apply IH.
  - intros [= <-]. unfold decode_History_ptr in Hv.
    destruct v; try done; destruct (decode_History _) eqn:Hd; try done;
      injection Hv as <-; by eapply Hcodec.
Qed.

Lemma UnmarshalJSON_Err b (r r' : ToolResponse.t) e :
  decoder_errors_only → ToolResponse.UnmarshalJSON b r = (r', Some e) →
  is_decode_error e = true.
Proof.
  intros Hcodec. destruct b as [| [| | | | | kvs]]; try by intros [= _ <-].
  rewrite UnmarshalJSON_object. destruct (in_range (JObj kvs)); [| by intros [= _ <-]].
  destruct (decode_Current _ _) as [cur | e1] eqn:Hcur; cbn [mbind result_bind].
  - destruct (decode_History_slice _) as [hs | e2] eqn:Hhs; cbn [mbind result_bind]; [done |].
    intros [= _ <-]. by eapply decode_History_slice_Err.
  - intros [= _ <-]. by eapply decode_Current_Err.
Qed.

End error_kinds.

Lemma snapshot_field_Err name kvs e :
  snapshot_field name kvs = Err e → is_decode_error e = true.
Proof.
  unfold snapshot_field. destruct (member name kvs); [apply decode_float64_Err | done].
Qed.

Lemma snapshots_decoder_errors_only : @decoder_errors_only snapshots.
Proof.
  intros v e. destruct v as [| | | | | kvs]; try by intros [= <-].
  cbn [decode_History snapshots decode_Snapshot].
  destruct (snapshot_field "actual" kvs) eqn:Ha; cbn [mbind result_bind];
    [| intros [= <-]; by eapply snapshot_field_Err].
  destruct (snapshot_field "target" kvs) eqn:Ht; cbn [mbind result_bind];
    [| intros [= <-]; by eapply snapshot_field_Err].
  destruct (snapshot_field "timestamp" kvs) eqn:Hts; cbn [mbind result_bind];
    [done | intros [= <-]; by eapply snapshot_field_Err].
Qed.

(** * The commands *)

(** C3: each command that writes encodes to one object with the member
    command, holding the literal of its variant, followed by the fields the
    command declares and nothing else; the flow-rate factor is a string.
    The tool and the factor are written as text: where the Go string holds
    a byte that is not UTF-8, the JSON string holds U+FFFD. *)
Theorem write_commands_encode_exactly {W : Type} `{Writer W} (w : W) :
  (∀ cmd, TargetCommand.encode cmd w =
     Write w (JObj [("command", JStr "target");
                    ("target", marshal_map_int (TargetCommand.Target cmd))])) ∧
  (∀ cmd, OffsetCommand.encode cmd w =
     Write w (JObj [("command", JStr "offset");
                    ("offsets", marshal_map_int (OffsetCommand.Offsets cmd))])) ∧
  (∀ cmd, ExtrudeCommand.encode cmd w =
     Write w (JObj [("command", JStr "extrude");
                    ("amount", JNum (ExtrudeCommand.Amount cmd))])) ∧
  (∀ cmd, SelectCommand.encode cmd w =
     Write w (JObj [("command", JStr "select");
                    ("tool", JStr (replace_invalid (SelectCommand.Tool cmd)))])) ∧
  (∀ cmd, FlowrateCommand.encode cmd w =
     Write w (JObj [("command", JStr "flowrate");
                    ("factor", JStr (replace_invalid (FlowrateCommand.Factor cmd)))])).
Proof. split_and!; intros cmd; reflexivity. Qed.

(** The bodies of the spec's table, evaluated. *)
Example select_body :
  SelectCommand.encode (SelectCommand.mk "tool1") NewBuffer =
    ([JObj [("command", JStr "select"); ("tool", JStr "tool1")]], None).
Proof. reflexivity. Qed.

Example select_body_not_text :
  SelectCommand.encode (SelectCommand.mk (String "255" "")) NewBuffer =
    ([JObj [("command", JStr "select"); ("tool", JStr RuneError)]], None).
Proof. reflexivity. Qed.

Example target_body :
  TargetCommand.encode
    (TargetCommand.mk (Some (<["tool1" := 210%Z]> (<["bed" := 60%Z]> ∅)))) NewBuffer =
    ([JObj [("command", JStr "target");
            ("target", JObj [("bed", JNum 60%Z); ("tool1", JNum 210%Z)])]], None).
Proof. vm_compute. reflexivity. Qed.

Section dispatch.
Context `{HistoryCodec}.

(** The request of a [ToolCommand]. *)
Lemma ToolCommand_Do_unfold cmd c :
  let req := mkrequest "GET"
               (URITool +:+ "?history=" +:+ fmt_t (ToolCommand.History cmd) +:+
                "&limit=" +:+ fmt_d (ToolCommand.Limit cmd)) None in
  ToolCommand.Do cmd c =
    (match transport c (sent c) req with
     | (_, Some e) => (None, Some e)
     | (b, None) =>
         match Unmarshal_ToolResponse_ptr b zero_toolResponse with
         | (_, Some e) => (None, Some e)
         | (r, None) => (r, None)
         end
     end, mkClient (transport c) (sent c ++ [req])).
Proof.
  intros req. unfold ToolCommand.Do, doRequest. fold req.
  destruct (transport c (sent c) req) as [b [e |]]; [done |].
  by destruct (Unmarshal_ToolResponse_ptr b zero_toolResponse) as [r' [e |]].
Qed.

End dispatch.

(** C4: [Do] of a [ToolCommand] makes a GET request without body to the
    tool endpoint followed by [?history=<bool>&limit=<int>], whatever the
    command holds; for history true and limit 5 the query is
    [history=true&limit=5]. *)
Theorem ToolCommand_Do_request `{HistoryCodec} cmd c :
  ∃ query,
    sent (ToolCommand.Do cmd c).2 =
      sent c ++ [mkrequest "GET" ("/api/printer/tool" +:+ "?" +:+ query) None] ∧
    query = "history=" +:+ (if ToolCommand.History cmd then "true" else "false") +:+
            "&limit=" +:+ pretty (ToolCommand.Limit cmd) ∧
    (cmd = ToolCommand.mk true 5 → query = "history=true&limit=5").
Proof.
  eexists. split_and!; [| reflexivity | by intros ->].
  by rewrite ToolCommand_Do_unfold.
Qed.

(** The spec's scenario, evaluated, and [%d] on a few integers. *)
Example read_request :
  sent (@ToolCommand.Do snapshots (ToolCommand.mk true 5) (answering (Document (JObj [])))).2 =
    [mkrequest "GET" "/api/printer/tool?history=true&limit=5" None].
Proof. reflexivity. Qed.

Example fmt_d_decimal : fmt_d 0 = "0" ∧ fmt_d 120 = "120" ∧ fmt_d (-7) = "-7".
Proof. by split_and!. Qed.

(** The encoder of a write command, on the buffer [Do] gives it. *)
Lemma Encode_Buffer v : Encode NewBuffer v = ([marshal v], None).
Proof. done. Qed.

(** C5: every [Do] calls the transport exactly once, and an error of the
    transport is returned as it is, without a response for the read. *)
Theorem Do_one_round_trip `{HistoryCodec} c :
  (∀ cmd, ∃ req,
     sent (ToolCommand.Do cmd c).2 = sent c ++ [req] ∧
     ∀ e, (transport c (sent c) req).2 = Some e →
          (ToolCommand.Do cmd c).1 = (None, Some e)) ∧
  (∀ cmd, ∃ req,
     sent (TargetCommand.Do cmd c).2 = sent c ++ [req] ∧
     (TargetCommand.Do cmd c).1 = (transport c (sent c) req).2) ∧
  (∀ cmd, ∃ req,
     sent (OffsetCommand.Do cmd c).2 = sent c ++ [req] ∧
     (OffsetCommand.Do cmd c).1 = (transport c (sent c) req).2) ∧
  (∀ cmd, ∃ req,
     sent (ExtrudeCommand.Do cmd c).2 = sent c ++ [req] ∧
     (ExtrudeCommand.Do cmd c).1 = (transport c (sent c) req).2) ∧
  (∀ cmd, ∃ req,
     sent (SelectCommand.Do cmd c).2 = sent c ++ [req] ∧
     (SelectCommand.Do cmd c).1 = (transport c (sent c) req).2) ∧
  (∀ cmd, ∃ req,
     sent (FlowrateCommand.Do cmd c).2 = sent c ++ [req] ∧
     (FlowrateCommand.Do cmd c).1 = (transport c (sent c) req).2).
Proof.
  split_and!; intros cmd.
  - eexists. rewrite ToolCommand_Do_unfold. split; [reflexivity |].
    cbn [fst snd]. intros e He. destruct (transport c _ _) as [b [e' |]]; by simplify_eq/=.
  - eexists. unfold TargetCommand.Do, TargetCommand.encode. rewrite Encode_Buffer.
    unfold doRequest. split; [by destruct (transport c _ _) |].
    by destruct (transport c _ _) as [b e].
  - eexists. unfold OffsetCommand.Do, OffsetCommand.encode. rewrite Encode_Buffer.
    unfold doRequest. split; [by destruct (transport c _ _) |].
    by destruct (transport c _ _) as [b e].
  - eexists. unfold ExtrudeCommand.Do, ExtrudeCommand.encode. rewrite Encode_Buffer.
    unfold doRequest. split; [by destruct (transport c _ _) |].
    by destruct (transport c _ _) as [b e].
  - eexists. unfold SelectCommand.Do, SelectCommand.encode. rewrite Encode_Buffer.
    unfold doRequest. split; [by destruct (transport c _ _) |].
    by destruct (transport c _ _) as [b e].
  - eexists. unfold FlowrateCommand.Do, FlowrateCommand.encode. rewrite Encode_Buffer.
    unfold doRequest. split; [by destruct (transport c _ _) |].
    by destruct (transport c _ _) as [b e].
Qed.

(** The spec's scenario: the select command posts its body once and hands
    the transport's error back. *)
Example select_transport_error :
  SelectCommand.Do (SelectCommand.mk "tool1") (failing (errorString "connection refused")) =
    (Some (errorString "connection refused"),
     mkClient (transport (failing (errorString "connection refused")))
       [mkrequest "POST" "/api/printer/tool"
          (Some [JObj [("command", JStr "select"); ("tool", JStr "tool1")]])]).
Proof. reflexivity. Qed.

(** C6, as stated, fails: the body [null] is not a JSON object, and [Do]
    returns neither an error nor a response for it. *)
Lemma null_body_no_error :
  (@ToolCommand.Do snapshots (ToolCommand.mk true 5) (answering (Document JNull))).1 =
    (None, None).
Proof. reflexivity. Qed.

(** [Do] hands on the error it got: a transport that fails with a syntax
    error and a transport that delivers bytes that are not JSON give the
    caller the same result. *)
Remark same_error_from_either_side :
  (@ToolCommand.Do snapshots (ToolCommand.mk true 5) (failing SyntaxError)).1 =
  (@ToolCommand.Do snapshots (ToolCommand.mk true 5) (answering Malformed)).1.
Proof. reflexivity. Qed.

(** C6, amended: when the transport delivers bytes that are not JSON, or a
    JSON value that is neither an object nor null, or an object on which
    [UnmarshalJSON] fails, [Do] returns no response and the decoder's error
    as it is: a syntax error in the first case, an unmarshal-type error in
    the second, the error of [UnmarshalJSON] in the third; in each case an
    error of the JSON decoder, when the decoder of a history entry returns
    no other. *)
Theorem Do_decode_failure `{HistoryCodec} cmd c b e :
  decoder_errors_only →
  (doRequest "GET"
     (URITool +:+ "?history=" +:+ fmt_t (ToolCommand.History cmd) +:+
      "&limit=" +:+ fmt_d (ToolCommand.Limit cmd)) None c).1 = (b, None) →
  match b with
  | Malformed => e = SyntaxError
  | Document JNull => False
  | Document (JObj _) => (ToolResponse.UnmarshalJSON b zero_toolResponse).2 = Some e
  | Document _ => e = UnmarshalTypeError
  end →
  (ToolCommand.Do cmd c).1 = (None, Some e) ∧ is_decode_error e = true.
Proof.
  unfold doRequest. cbn [fst]. intros Hcodec Hb He.
  rewrite ToolCommand_Do_unfold. cbn [fst]. rewrite Hb.
  destruct b as [| [| | | | | kvs]]; try (by subst); try done.
  unfold Unmarshal_ToolResponse_ptr.
  destruct (ToolResponse.UnmarshalJSON _ _) as [r' [e' |]] eqn:Hrun; simplify_eq/=.
  split; [done |]. by eapply UnmarshalJSON_Err.
Qed.

Lemma Do_decode_failure_witness :
  (@ToolCommand.Do snapshots (ToolCommand.mk true 5)
     (answering (Document (JObj [("tool0", JStr "hot")])))).1 =
    (None, Some UnmarshalTypeError) ∧
  is_decode_error UnmarshalTypeError = true.
Proof.
  apply (@Do_decode_failure snapshots _ _ (Document (JObj [("tool0", JStr "hot")])));
    [exact snapshots_decoder_errors_only | vm_compute; reflexivity ..].
Defined.

(** * More on the normalizer *)

(** X1: bytes that are not JSON are refused with a syntax error and a JSON
    bool, number, string or array with an unmarshal-type error, the
    receiver staying as it was; the literal null is accepted and resets the
    receiver to the empty response. *)
Theorem UnmarshalJSON_not_an_object `{HistoryCodec} b (r : ToolResponse.t) :
  match b with
  | Malformed => ToolResponse.UnmarshalJSON b r = (r, Some SyntaxError)
  | Document JNull => ToolResponse.UnmarshalJSON b r = (zero_toolResponse, None)
  | Document (JObj _) => True
  | Document _ => ToolResponse.UnmarshalJSON b r = (r, Some UnmarshalTypeError)
  end.
Proof. by destruct b as [| []]. Qed.

(** X2: a successful [UnmarshalJSON] replaces the receiver as a whole:
    nothing of what it held before is left, whatever it was. *)
Theorem UnmarshalJSON_success_overwrites `{HistoryCodec} b (r r' : ToolResponse.t) :
  ToolResponse.UnmarshalJSON b r = (r', None) →
  ∀ r0 : ToolResponse.t, ToolResponse.UnmarshalJSON b r0 = (r', None).
Proof.
  unfold ToolResponse.UnmarshalJSON.
  destruct (Unmarshal_map b) as [raw [e1 |]]; [done |].
  destruct (Marshal _) as [b' ?].
  destruct (Unmarshal_toolResponse b' zero_toolResponse) as [i [e2 |]]; [done |].
  by intros [= <-].
Qed.

Lemma UnmarshalJSON_success_overwrites_witness :
  @ToolResponse.UnmarshalJSON snapshots (Document (JObj scenario_payload))
      (mktoolResponse snapshots {["bed" := mkCurrentState 60 60 0]} [None]) =
    (mktoolResponse snapshots {["tool0" := mkCurrentState 200.1 210 0]}
                    [Some (mkSnapshot 199 210 1000)], None).
Proof.
  apply (@UnmarshalJSON_success_overwrites snapshots _ zero_toolResponse).
  vm_compute. reflexivity.
Defined.

Lemma forallb_Permutation {A : Type} (f : A → bool) (l1 l2 : list A) :
  l1 ≡ₚ l2 → forallb f l1 = forallb f l2.
Proof.
  induction 1 as [| x l1 l2 _ IH | x y l | l1 l2 l3 _ IH1 _ IH2]; cbn [forallb].
  - done.
  - by rewrite IH.
  - by rewrite !andb_assoc, (andb_comm (f y)).
  - by rewrite IH1.
Qed.

Lemma member_Permutation {A : Type} k (kvs1 kvs2 : list (string * A)) :
  kvs1 ≡ₚ kvs2 → NoDup kvs1.*1 → member k kvs1 = member k kvs2.
Proof.
  intros Hperm Hnd. assert (NoDup kvs2.*1) as Hnd2 by by rewrite <- Hperm.
  destruct (member k kvs1) as [v |] eqn:Hk.
  - symmetry. apply member_NoDup; [done |]. rewrite <- Hperm. by apply member_elem_of.
  - symmetry. apply member_None. rewrite <- Hperm. by apply member_None.
Qed.

(** X3: the order of the members of the wire object does not matter: two
    objects with the same members, each key once, normalize alike. *)
Theorem UnmarshalJSON_key_order `{HistoryCodec} kvs1 kvs2 (r : ToolResponse.t) :
  kvs1 ≡ₚ kvs2 → NoDup kvs1.*1 →
  ToolResponse.UnmarshalJSON (Document (JObj kvs1)) r =
    ToolResponse.UnmarshalJSON (Document (JObj kvs2)) r.
Proof.
  intros Hperm Hnd. rewrite !UnmarshalJSON_object.
  assert (in_range (JObj kvs1) = in_range (JObj kvs2)) as ->
    by by apply forallb_Permutation.
  assert (objectInterface kvs1 = objectInterface kvs2) as ->; [| done].
  apply map_eq; intros k. rewrite !objectInterface_lookup.
  by rewrite (member_Permutation k kvs1 kvs2).
Qed.

Lemma UnmarshalJSON_key_order_witness :
  @ToolResponse.UnmarshalJSON snapshots
      (Document (JObj [("history", JNull); ("tool0", JObj [("actual", JNum 200.1%float)]);
                       ("bed", JObj [("target", JNum 60%float)])])) zero_toolResponse =
    ToolResponse.UnmarshalJSON
      (Document (JObj [("tool0", JObj [("actual", JNum 200.1%float)]); ("history", JNull);
                       ("bed", JObj [("target", JNum 60%float)])]))
      zero_toolResponse.
Proof.
  apply (@UnmarshalJSON_key_order snapshots); [apply Permutation_swap |].
  apply (bool_decide_unpack _). vm_compute. exact I.
Defined.

(** X4: of a key that occurs again later in the object only the last
    occurrence counts: an earlier one can be left out without changing the
    result, provided its numbers are in range. *)
Theorem UnmarshalJSON_last_occurrence `{HistoryCodec} l1 k v l2 (r : ToolResponse.t) :
  k ∈ l2.*1 → in_range v = true →
  ToolResponse.UnmarshalJSON (Document (JObj (l1 ++ (k, v) :: l2))) r =
    ToolResponse.UnmarshalJSON (Document (JObj (l1 ++ l2))) r.
Proof.
  intros Hk Hv. rewrite !UnmarshalJSON_object.
  assert (in_range (JObj (l1 ++ (k, v) :: l2)) = in_range (JObj (l1 ++ l2))) as ->.
  { cbn [in_range]. rewrite !forallb_app. cbn [forallb snd]. by rewrite Hv. }
  assert (objectInterface (l1 ++ (k, v) :: l2) = objectInterface (l1 ++ l2)) as ->; [| done].
  apply map_eq; intros k'. rewrite !objectInterface_lookup, !member_app. f_equal.
  destruct (decide (k = k')) as [<- | Hne]; [| by rewrite member_cons_ne].
  cbn [member fst snd]. destruct (member k l2) eqn:Hl2; [done |].
  by apply member_None in Hl2.
Qed.

Lemma UnmarshalJSON_last_occurrence_witness :
  @ToolResponse.UnmarshalJSON snapshots
      (Document (JObj ([] ++ ("tool0", JStr "hot") ::
                       [("tool0", JObj [("actual", JNum 200.1%float)])]))) zero_toolResponse =
    ToolResponse.UnmarshalJSON
      (Document (JObj ([] ++ [("tool0", JObj [("actual", JNum 200.1%float)])])))
      zero_toolResponse.
Proof.
  apply (@UnmarshalJSON_last_occurrence snapshots); [| reflexivity].
  apply (bool_decide_unpack _). vm_compute. exact I.
Defined.

Lemma objectInterface_dom kvs : dom (objectInterface kvs) = list_to_set kvs.*1.
Proof.
  apply set_eq; intros k. rewrite elem_of_dom, elem_of_list_to_set, objectInterface_lookup.
  destruct (member k kvs) as [v |] eqn:Hk.
  - split; [intros _ | by eexists].
    apply member_elem_of in Hk. apply list_elem_of_fmap. by exists (k, v).
  - apply member_None in Hk. split; [by intros [? ?] | done].
Qed.

Section success_shape.
Context `{HistoryCodec}.

(** What the two typed decodes returned when [UnmarshalJSON] succeeded. *)
Lemma UnmarshalJSON_success kvs (r r' : ToolResponse.t) :
  ToolResponse.UnmarshalJSON (Document (JObj kvs)) r = (r', None) →
  in_range (JObj kvs) = true ∧
  decode_Current (JObj (members (delete "history" (objectInterface kvs)))) ∅ = Ok (Current r') ∧
  decode_History_slice (default JNull (objectInterface kvs !! "history")) = Ok (History r').
Proof.
  rewrite UnmarshalJSON_object. destruct (in_range (JObj kvs)); [| done].
  destruct (decode_Current _ _) as [cur |]; [| done]. cbn [mbind result_bind].
  destruct (decode_History_slice _) as [hs |]; [| done]. by intros [= <-].
Qed.

Lemma mapM_decode_History_ptr_nulls items hs :
  in_range (JArr items) = true →
  mapM decode_History_ptr (map to_interface items) = Ok hs →
  Forall2 (λ item o, item = JNull ↔ o = None) items hs.
Proof.
  revert hs. induction items as [| item items IH]; intros hs; cbn [map mapM in_range forallb].
  - intros _ [= <-]. constructor.
  - fold in_range. intros [Hr Hrs]%andb_true_iff.
    destruct (decode_History_ptr (to_interface item)) as [o |] eqn:Ho; [| done].
    cbn [mbind result_bind].
    destruct (mapM decode_History_ptr (map to_interface items)) as [hs' |] eqn:Hhs; [| done].
    intros [= <-]. constructor; [| by apply IH].
    pose proof (to_interface_tag _ Hr) as Htag. unfold decode_History_ptr in Ho.
    destruct item; rewrite Htag in Ho; try (by simplify_eq/=);
      by destruct (decode_History _); simplify_eq/=.
Qed.

End success_shape.

(** X5: whenever [UnmarshalJSON] succeeds on an object, the tools of
    [Current] are exactly the keys of the object other than history: none is
    dropped and none is made up. *)
Theorem normalized_tools_are_the_keys `{HistoryCodec} kvs (r r' : ToolResponse.t) :
  ToolResponse.UnmarshalJSON (Document (JObj kvs)) r = (r', None) →
  dom (Current r') = list_to_set kvs.*1 ∖ {["history"]}.
Proof.
  intros (Hr & Hcur & _)%UnmarshalJSON_success.
  rewrite <- objectInterface_dom, <- dom_delete_L.
  apply set_eq; intros k. rewrite !elem_of_dom. split.
  - intros [s Hs]. eapply decode_Current_members_inv in Hs as [_ Hk]; [done | | done].
    intros k' v [_ Hv]%lookup_delete_Some. by eapply objectInterface_in_range.
  - intros [v Hv]. destruct (decode_Current_members_lookup _ _ _ _ Hcur Hv) as (s & Hs & _).
    by eexists.
Qed.

Lemma normalized_tools_are_the_keys_witness :
  dom (Current (mktoolResponse snapshots {["tool0" := mkCurrentState 200.1 210 0]}
                               [Some (mkSnapshot 199 210 1000)])) =
    list_to_set scenario_payload.*1 ∖ {["history"]}.
Proof.
  apply (@normalized_tools_are_the_keys snapshots scenario_payload zero_toolResponse).
  vm_compute. reflexivity.
Defined.

(** X6: whenever [UnmarshalJSON] succeeds on an object whose history is an
    array, [History] has one entry for each item of the array, in order, and
    the nil pointers are exactly at the places of the null items. *)
Theorem normalized_history_item_by_item `{HistoryCodec} kvs items (r r' : ToolResponse.t) :
  ToolResponse.UnmarshalJSON (Document (JObj kvs)) r = (r', None) →
  member "history" kvs = Some (JArr items) →
  length (History r') = length items ∧
  Forall2 (λ item o, item = JNull ↔ o = None) items (History r').
Proof.
  intros (Hr & _ & Hhis)%UnmarshalJSON_success Hitems.
  rewrite objectInterface_lookup, Hitems in Hhis.
  pose proof (in_range_member _ _ _ Hr Hitems) as Hri.
  cbn [fmap option_fmap option_map default] in Hhis.
  rewrite (to_interface_tag _ Hri) in Hhis. cbn [decode_History_slice] in Hhis.
  apply mapM_decode_History_ptr_nulls in Hhis; [| done].
  split; [symmetry; by eapply Forall2_length | done].
Qed.

Lemma normalized_history_item_by_item_witness :
  length (History (mktoolResponse snapshots ∅ [None; Some (mkSnapshot 199 210 1000)])) =
    length [JNull; JObj [("actual", JNum 199%float); ("target", JNum 210%float);
                         ("timestamp", JNum 1000%float)]] ∧
  Forall2 (λ item o, item = JNull ↔ o = None)
    [JNull; JObj [("actual", JNum 199%float); ("target", JNum 210%float);
                  ("timestamp", JNum 1000%float)]]
    (History (mktoolResponse snapshots ∅ [None; Some (mkSnapshot 199 210 1000)])).
Proof.
  apply (@normalized_history_item_by_item snapshots
           [("history", JArr [JNull; JObj [("actual", JNum 199%float);
                                           ("target", JNum 210%float);
                                           ("timestamp", JNum 1000%float)]])]
           _ zero_toolResponse); vm_compute; reflexivity.
Defined.

(** The typed decoders of [Current] fail with an unmarshal-type error only. *)
Lemma decode_float64_Err_type v old e : decode_float64 v old = Err e → e = UnmarshalTypeError.
Proof. destruct v; try done; by intros [= <-]. Qed.

Lemma decode_CurrentState_Err_type v s e :
  decode_CurrentState v s = Err e → e = UnmarshalTypeError.
Proof.
  destruct v as [| | | | | kvs]; try done; try by intros [= <-].
  cbn [decode_CurrentState]. apply (foldM_Err (λ e, e = UnmarshalTypeError)).
  intros s1 kv e1. unfold CurrentState_set.
  repeat case_match; try done;
    by destruct (decode_float64 _ _) eqn:Hx; [| intros [= <-]; eapply decode_float64_Err_type].
Qed.

Lemma decode_Current_Err_type v old e : decode_Current v old = Err e → e = UnmarshalTypeError.
Proof.
  destruct v as [| | | | | kvs]; try done; try by intros [= <-].
  cbn [decode_Current]. apply (foldM_Err (λ e, e = UnmarshalTypeError)).
  intros m kv e1. destruct (decode_CurrentState _ _) eqn:Hs; [done |].
  intros [= <-]. by eapply decode_CurrentState_Err_type.
Qed.






(** X8: a history that is a bool, a number, a string or an object makes
    [UnmarshalJSON] fail with an unmarshal-type error, whatever else the
    object holds. *)
Theorem UnmarshalJSON_rejects_non_array_history `{HistoryCodec} kvs v (r : ToolResponse.t) :
  member "history" kvs = Some v → scalar_or_object v →
  ToolResponse.UnmarshalJSON (Document (JObj kvs)) r = (r, Some UnmarshalTypeError).
Proof.
  intros Hv Hscalar. rewrite UnmarshalJSON_object.
  destruct (in_range (JObj kvs)) eqn:Hr; [| done].
  pose proof (in_range_member _ _ _ Hr Hv) as Hrv.
  destruct (decode_Current _ _) as [cur | e] eqn:Hcur; cbn [mbind result_bind];
    [| by rewrite (decode_Current_Err_type _ _ _ Hcur)].
  rewrite objectInterface_lookup, Hv. cbn [fmap option_fmap option_map default].
  pose proof (to_interface_tag _ Hrv) as Htag. by destruct v; rewrite Htag.
Qed.

Lemma UnmarshalJSON_rejects_non_array_history_witness :
  @ToolResponse.UnmarshalJSON snapshots
      (Document (JObj [("tool0", JObj [("actual", JNum 200.1%float)]);
                       ("history", JObj [("timestamp", JNum 1000%float)])]))
      zero_toolResponse =
    (zero_toolResponse, Some UnmarshalTypeError).
Proof.
  apply (@UnmarshalJSON_rejects_non_array_history snapshots _
           (JObj [("timestamp", JNum 1000%float)])); [reflexivity | exact I].
Defined.

(** X9: whatever the bytes, a response that [UnmarshalJSON] returned has no
    tool called history, and every temperature in it is a finite number. *)
Theorem normalized_is_finite `{HistoryCodec} b (r r' : ToolResponse.t) :
  ToolResponse.UnmarshalJSON b r = (r', None) →
  Current r' !! "history" = None ∧
  ∀ k s, Current r' !! k = Some s →
    is_finite (Actual s) = true ∧ is_finite (Target s) = true ∧ is_finite (Offset s) = true.
Proof. intros (Hh & Hfin & _)%UnmarshalJSON_normalized. split; [done | exact Hfin]. Qed.

Lemma normalized_is_finite_witness :
  Current (mktoolResponse snapshots {["tool0" := mkCurrentState 200.1 210 0]}
                          [Some (mkSnapshot 199 210 1000)]) !! "history" = None ∧
  ∀ k s, Current (mktoolResponse snapshots {["tool0" := mkCurrentState 200.1 210 0]}
                                 [Some (mkSnapshot 199 210 1000)]) !! k = Some s →
    is_finite (Actual s) = true ∧ is_finite (Target s) = true ∧ is_finite (Offset s) = true.
Proof.
  apply (@normalized_is_finite snapshots (Document (JObj scenario_payload)) zero_toolResponse).
  vm_compute. reflexivity.
Defined.

(** * More on the commands *)

(** X10: [Do] of a [ToolCommand] never returns a response together with an
    error, and it returns neither of the two exactly when the transport
    delivered the literal null without an error. *)
Theorem ToolCommand_Do_result_shapes `{HistoryCodec} cmd c :
  (∀ (r : ToolResponse.t) e, (ToolCommand.Do cmd c).1 ≠ (Some r, Some e)) ∧
  ((ToolCommand.Do cmd c).1 = (None, None) ↔
   transport c (sent c) (ToolCommand_request cmd) = (Document JNull, None)).
Proof.
  rewrite ToolCommand_Do_unfold. cbn [fst]. fold (ToolCommand_request cmd).
  destruct (transport c (sent c) (ToolCommand_request cmd)) as [b [e |]].
  { split; [done |]. by split. }
  unfold Unmarshal_ToolResponse_ptr.
  destruct b as [| j]; [split; [done | by split] |].
  destruct j; try (split; [done | by split]);
    destruct (ToolResponse.UnmarshalJSON _ _) as [r' [e |]]; split; try done; by split.
Qed.

(** X11: [Do] of a [ToolCommand] returns a response without an error
    exactly when the transport delivered, without an error, bytes other
    than null on which [UnmarshalJSON] succeeds from the empty response;
    the response is what [UnmarshalJSON] left in it. *)
Theorem ToolCommand_Do_response `{HistoryCodec} cmd c (r : ToolResponse.t) :
  (ToolCommand.Do cmd c).1 = (Some r, None) ↔
  ∃ b, transport c (sent c) (ToolCommand_request cmd) = (b, None) ∧
       b ≠ Document JNull ∧
       ToolResponse.UnmarshalJSON b zero_toolResponse = (r, None).
Proof.
  rewrite ToolCommand_Do_unfold. cbn [fst]. fold (ToolCommand_request cmd).
  destruct (transport c (sent c) (ToolCommand_request cmd)) as [b [e |]].
  { split; [done | by intros (b' & [= _] & _)]. }
  unfold Unmarshal_ToolResponse_ptr. split.
  - intros Hrun. exists b. split; [done |].
    destruct b as [| []]; try done;
      destruct (ToolResponse.UnmarshalJSON _ _) as [r' [e |]]; by simplify_eq/=.
  - intros (b' & [= <-] & Hnull & Hrun).
    destruct b as [| []]; try done; by rewrite Hrun.
Qed.

(** X12: [Do] of a command that writes makes one POST request to the tool
    endpoint, without a query, whose body is the one object the command
    encodes to, the tool and the factor in it as text. *)
Theorem write_commands_post c :
  (∀ cmd, sent (TargetCommand.Do cmd c).2 = sent c ++
     [mkrequest "POST" "/api/printer/tool"
        (Some [JObj [("command", JStr "target");
                     ("target", marshal_map_int (TargetCommand.Target cmd))]])]) ∧
  (∀ cmd, sent (OffsetCommand.Do cmd c).2 = sent c ++
     [mkrequest "POST" "/api/printer/tool"
        (Some [JObj [("command", JStr "offset");
                     ("offsets", marshal_map_int (OffsetCommand.Offsets cmd))]])]) ∧
  (∀ cmd, sent (ExtrudeCommand.Do cmd c).2 = sent c ++
     [mkrequest "POST" "/api/printer/tool"
        (Some [JObj [("command", JStr "extrude");
                     ("amount", JNum (ExtrudeCommand.Amount cmd))]])]) ∧
  (∀ cmd, sent (SelectCommand.Do cmd c).2 = sent c ++
     [mkrequest "POST" "/api/printer/tool"
        (Some [JObj [("command", JStr "select");
                     ("tool", JStr (replace_invalid (SelectCommand.Tool cmd)))]])]) ∧
  (∀ cmd, sent (FlowrateCommand.Do cmd c).2 = sent c ++
     [mkrequest "POST" "/api/printer/tool"
        (Some [JObj [("command", JStr "flowrate");
                     ("factor", JStr (replace_invalid (FlowrateCommand.Factor cmd)))]])]).
Proof.
  split_and!; intros cmd.
  - unfold TargetCommand.Do, TargetCommand.encode. rewrite Encode_Buffer.
    unfold doRequest. by destruct (transport c _ _).
  - unfold OffsetCommand.Do, OffsetCommand.encode. rewrite Encode_Buffer.
    unfold doRequest. by destruct (transport c _ _).
  - unfold ExtrudeCommand.Do, ExtrudeCommand.encode. rewrite Encode_Buffer.
    unfold doRequest. by destruct (transport c _ _).
  - unfold SelectCommand.Do, SelectCommand.encode. rewrite Encode_Buffer.
    unfold doRequest. by destruct (transport c _ _).
  - unfold FlowrateCommand.Do, FlowrateCommand.encode. rewrite Encode_Buffer.
    unfold doRequest. by destruct (transport c _ _).
Qed.

(** The order of the keys. *)
Lemma key_le_total {A : Type} : Total (@key_le A).
Proof.
  intros x y. unfold key_le.
  destruct (String.leb_total x.1 y.1) as [-> | ->]; [by left | by right].
Qed.

Lemma members_Sorted {A : Type} (m : gmap string A) : Sorted key_le (members m).
Proof. apply Sorted_merge_sort, key_le_total. Qed.

(** *** Strings on the wire *)

(** The text written for a string is well-formed UTF-8, and a string that
    is well-formed is written as it is. *)
Lemma replace_invalid_from_follows s : ∀ skip lo hi,
  follows skip lo hi s = true →
  follows skip lo hi (replace_invalid_from skip s) = true ∧
  ValidString_from skip (replace_invalid_from skip s) = true.
Proof.
  induction s as [| c s IH]; intros skip lo hi Hs.
  { by destruct skip. }
  destruct skip as [| n].
  - split; [done |]. cbn [replace_invalid_from ValidString_from].
    unfold DecodeRuneInString at 1.
    destruct (first c) as [[n [lo' hi']] |] eqn:Hc.
    + destruct (follows n lo' hi' s) eqn:Hn.
      * destruct (IH n lo' hi' Hn) as [Hn' Hvalid]. cbn [pred].
        cbn [ValidString_from]. unfold DecodeRuneInString. by rewrite Hc, Hn'.
      * by apply (IH 0%nat lo hi).
    + by apply (IH 0%nat lo hi).
  - cbn [follows] in Hs. apply andb_prop in Hs as [Hc Hn].
    destruct (IH n 0x80%N 0xBF%N Hn) as [Hn' Hvalid].
    cbn [replace_invalid_from follows ValidString_from]. by rewrite Hc, Hn'.
Qed.

Lemma ValidString_replace_invalid s : ValidString (replace_invalid s) = true.
Proof. by apply (replace_invalid_from_follows s 0 0%N 0%N). Qed.

Lemma replace_invalid_from_valid s : ∀ skip,
  ValidString_from skip s = true → replace_invalid_from skip s = s.
Proof.
  induction s as [| c s IH]; intros skip Hs; [done |].
  cbn [replace_invalid_from ValidString_from] in *. destruct skip as [| n].
  - destruct (DecodeRuneInString (String c s)); [| done]. by rewrite IH.
  - by rewrite IH.
Qed.

Lemma replace_invalid_ValidString s : ValidString s = true → replace_invalid s = s.
Proof. apply replace_invalid_from_valid. Qed.


(** A list without repetition keeps it under a function exactly when the
    function tells its elements apart. *)
Lemma NoDup_fmap_inj_on {A B : Type} (f : A → B) (l : list A) :
  NoDup l →
  NoDup (f <$> l) ↔ ∀ x y, x ∈ l → y ∈ l → f x = f y → x = y.
Proof.
  intros Hl. split; [| intros Hinj; by apply NoDup_fmap_2_strong].
  induction Hl as [| a l Ha Hl IH]; [by intros _ x y ?%elem_of_nil |].
  rewrite fmap_cons, NoDup_cons. intros [Hfa Hfl] x y Hx Hy Hxy.
  apply elem_of_cons in Hx as [-> | Hx]; apply elem_of_cons in Hy as [-> | Hy].
  - done.
  - destruct Hfa. rewrite Hxy. by apply list_elem_of_fmap_2.
  - destruct Hfa. rewrite <- Hxy. by apply list_elem_of_fmap_2.
  - by apply IH.
Qed.

(** The members written for the entries of a map. *)
Lemma written_entries_keys es : (written_entries es).*1 = replace_invalid <$> es.*1.
Proof. unfold written_entries. rewrite <- !list_fmap_compose. by apply list_fmap_ext. Qed.

Lemma written_entries_valid es :
  Forall (λ e, ValidString e.1 = true) es →
  written_entries es = (λ e, (e.1, JNum e.2)) <$> es.
Proof.
  intros Hes. apply Forall_fmap_ext_1. eapply Forall_impl; [done |].
  intros [k n] Hk. cbn in *. by rewrite replace_invalid_ValidString.
Qed.

Lemma elem_of_members_keys {A : Type} (m : gmap string A) k :
  k ∈ (members m).*1 ↔ is_Some (m !! k).
Proof.
  rewrite list_elem_of_fmap. split.
  - intros ([k' v] & -> & Hkv). apply elem_of_members in Hkv. by exists v.
  - intros [v Hv]. exists (k, v). split; [done |]. by apply elem_of_members.
Qed.

(** X13: in the body of a target or offset command a nil map is written as
    null, and any other map as an object with one member for each entry of
    the map, in the order of the keys as the map has them, holding the
    entry's number under its key as text.  The keys written are well-formed
    UTF-8, and they are distinct exactly when no two keys of the map are
    written alike. *)
Theorem map_commands_body :
  (∀ m : gmap string Z, ∃ es,
     TargetCommand.encode (TargetCommand.mk (Some m)) NewBuffer =
       ([JObj [("command", JStr "target"); ("target", JObj (written_entries es))]], None) ∧
     OffsetCommand.encode (OffsetCommand.mk (Some m)) NewBuffer =
       ([JObj [("command", JStr "offset"); ("offsets", JObj (written_entries es))]], None) ∧
     es ≡ₚ map_to_list m ∧ Sorted key_le es ∧
     Forall (λ kv, ValidString kv.1 = true) (written_entries es) ∧
     (NoDup (written_entries es).*1 ↔
        ∀ k1 k2, is_Some (m !! k1) → is_Some (m !! k2) →
                 replace_invalid k1 = replace_invalid k2 → k1 = k2)) ∧
  TargetCommand.encode (TargetCommand.mk None) NewBuffer =
    ([JObj [("command", JStr "target"); ("target", JNull)]], None) ∧
  OffsetCommand.encode (OffsetCommand.mk None) NewBuffer =
    ([JObj [("command", JStr "offset"); ("offsets", JNull)]], None).
Proof.
  split_and!; try reflexivity. intros m. exists (members m).
  split_and!; try reflexivity.
  - apply members_Permutation.
  - apply members_Sorted.
  - apply Forall_fmap, Forall_true. intros e. apply ValidString_replace_invalid.
  - rewrite written_entries_keys, (NoDup_fmap_inj_on _ _ (members_NoDup m)).
    by setoid_rewrite elem_of_members_keys.
Qed.

(** X16: when every key of the map is well-formed UTF-8, the object
    written for it has each key of the map once, in ascending order, with
    the number the map gives it, and no other key. *)
Theorem map_commands_body_valid_keys (m : gmap string Z) :
  map_Forall (λ k _, ValidString k = true) m →
  ∃ kvs,
    TargetCommand.encode (TargetCommand.mk (Some m)) NewBuffer =
      ([JObj [("command", JStr "target"); ("target", JObj kvs)]], None) ∧
    OffsetCommand.encode (OffsetCommand.mk (Some m)) NewBuffer =
      ([JObj [("command", JStr "offset"); ("offsets", JObj kvs)]], None) ∧
    NoDup kvs.*1 ∧ Sorted key_le kvs ∧ ∀ k, member k kvs = JNum <$> m !! k.
Proof.
  intros Hm. exists ((λ e, (e.1, JNum e.2)) <$> members m).
  assert (written_entries (members m) = (λ e, (e.1, JNum e.2)) <$> members m) as Hw.
  { apply written_entries_valid, Forall_forall. intros [k n] Hkn%elem_of_members.
    by apply (Hm k n). }
  split_and!.
  - unfold TargetCommand.encode. rewrite Encode_Buffer. cbn. by rewrite Hw.
  - unfold OffsetCommand.encode. rewrite Encode_Buffer. cbn. by rewrite Hw.
  - rewrite <- list_fmap_compose. apply members_NoDup.
  - apply Sorted_fmap with (R1 := key_le); [done | apply members_Sorted].
  - intros k. by rewrite member_map, member_members.
Qed.

Lemma map_commands_body_valid_keys_witness :
  ∃ kvs,
    TargetCommand.encode
      (TargetCommand.mk (Some (<["tool1" := 210%Z]> (<["bed" := 60%Z]> ∅)))) NewBuffer =
      ([JObj [("command", JStr "target"); ("target", JObj kvs)]], None) ∧
    OffsetCommand.encode
      (OffsetCommand.mk (Some (<["tool1" := 210%Z]> (<["bed" := 60%Z]> ∅)))) NewBuffer =
      ([JObj [("command", JStr "offset"); ("offsets", JObj kvs)]], None) ∧
    NoDup kvs.*1 ∧ Sorted key_le kvs ∧
    ∀ k, member k kvs = JNum <$> (<["tool1" := 210%Z]> (<["bed" := 60%Z]> ∅) : gmap string Z) !! k.
Proof.
  apply map_commands_body_valid_keys.
  apply map_Forall_insert_2; [reflexivity |].
  apply map_Forall_insert_2; [reflexivity |]. apply map_Forall_empty.
Defined.

(** Two keys that are not text, evaluated: both are written as the same
    key, in the order of the bytes they had. *)
Example target_body_repeated_key :
  TargetCommand.encode
    (TargetCommand.mk (Some (<["a" +:+ String "255" "" := 1%Z]>
                               (<["a" +:+ String "254" "" := 2%Z]> ∅)))) NewBuffer =
    ([JObj [("command", JStr "target");
            ("target", JObj [("a" +:+ RuneError, JNum 2%Z); ("a" +:+ RuneError, JNum 1%Z)])]],
     None).
Proof. vm_compute. reflexivity. Qed.

Lemma ToolCommand_Do_sent `{HistoryCodec} cmd c :
  sent (ToolCommand.Do cmd c).2 = sent c ++ [ToolCommand_request cmd].
Proof. by rewrite ToolCommand_Do_unfold. Qed.

(** X14: the request identifies the command: two [ToolCommand]s whose [Do]
    makes the same request hold the same history flag and the same limit. *)
Theorem ToolCommand_request_inj `{HistoryCodec} cmd1 cmd2 c :
  sent (ToolCommand.Do cmd1 c).2 = sent (ToolCommand.Do cmd2 c).2 → cmd1 = cmd2.
Proof.
  rewrite !ToolCommand_Do_sent. intros [= Huri]%app_inv_head.
  destruct cmd1 as [h1 n1], cmd2 as [h2 n2].
  cbn [ToolCommand.History ToolCommand.Limit] in Huri.
  destruct h1, h2; cbn in Huri; try discriminate Huri;
    injection Huri as Huri; by apply pretty_Z_inj in Huri as ->.
Qed.

Lemma ToolCommand_request_inj_witness :
  ToolCommand.mk true 5 = ToolCommand.mk true 5.
Proof.
  apply (@ToolCommand_request_inj snapshots _ _ (answering Malformed)). reflexivity.
Defined.

(** * The idle menu *)

(** X15: the idle menu is made once: whatever the package variable holds,
    after a call of [IdleMenuPanel] it holds the panel that call returned,
    and every later call returns that same panel and leaves the variable as
    it is, whatever [ui] and [parent] it is given. *)
Theorem IdleMenuPanel_once `{PanelKit} ui parent args instance :
  (IdleMenuPanel ui parent instance).2 = Some (IdleMenuPanel ui parent instance).1 ∧
  IdleMenuPanel_calls args (IdleMenuPanel ui parent instance).2 =
    (replicate (length args) (IdleMenuPanel ui parent instance).1,
     (IdleMenuPanel ui parent instance).2).
Proof.
  destruct (IdleMenuPanel ui parent instance) as [m instance'] eqn:Hcall. cbn [fst snd].
  assert (instance' = Some m) as -> by by destruct instance; simplify_eq/=.
  split; [done |]. clear Hcall.
  induction args as [| [ui' parent'] args IH]; [done |].
  cbn [IdleMenuPanel_calls IdleMenuPanel length replicate]. by rewrite IH.
Qed.

(** Two calls with different arguments, evaluated: the second returns the
    panel of the first, with its five buttons attached once. *)
Example idle_menu_twice :
  @IdleMenuPanel_calls logging_kit [("ui1", "splash"); ("ui2", "other")] None =
    (replicate 2
       (@mkidleMenuPanel logging_kit
          ["new ui1 splash"; "Network at 1,0"; "ToolChanger at 2,0"; "Control at 3,0";
           "System at 4,0"; "Temperature at 1,1"; "Initialize"]),
     Some (@mkidleMenuPanel logging_kit
          ["new ui1 splash"; "Network at 1,0"; "ToolChanger at 2,0"; "Control at 3,0";
           "System at 4,0"; "Temperature at 1,1"; "Initialize"])).
Proof. reflexivity. Qed.
